(** * W.I.L.L notifications: a shallow embedding of
      [will/userspace/notifications.py]

    The development follows the Python module top to bottom: the values the
    dynamically typed slots can hold, the effects (exceptions that leave the
    state they were raised in, logging, the clock, the durable store, the
    mail relay), the class [Notification], the class [NotificationHandler],
    and then the properties of both. *)

From Stdlib Require Import ZArith NArith List String Ascii Bool Lia.
Import ListNotations.

Open Scope string_scope.
Open Scope list_scope.
Open Scope Z_scope.

(** ** Python values *)

(** Modelled from the spec: the owning user's record.  Its class lives in
    [will.schema], which is not part of the sources at hand.  The spec asks
    for a read-only record exposing [username], [first_name], [last_name]
    and a settings map containing [email]; the module reads it both as
    [user_data["username"]] and as [user_data.username]. *)
Record user : Type := mkUser {
  username : string;
  first_name : string;
  last_name : string;
  settings : list (string * string)
}.

(** Hashable scalars: what a column of the store, a dictionary key, the
    [uid] and the [created] slot of a notification hold.  Epoch times and
    [datetime] values are counted in whole seconds. *)
Inductive scalar : Type :=
| SNone
| SStr (s : string)
| SUuid (u : N)
| SDate (t : Z).

(** Everything an untyped slot of a notification may hold. *)
Inductive pyval : Type :=
| Scalar (a : scalar)
| StrList (l : list string)
| UserRec (u : user)
| DbHandle.

Definition None_ : pyval := Scalar SNone.
Definition Str (s : string) : pyval := Scalar (SStr s).

Definition scalar_eq_dec (a b : scalar) : {a = b} + {a <> b}.
Proof.
  decide equality; [apply string_dec | apply N.eq_dec | apply Z.eq_dec].
Defined.

Definition scalar_eqb (a b : scalar) : bool :=
  if scalar_eq_dec a b then true else false.

(** Python truth value testing ([if x:], [not x]). *)
Definition truthy_scalar (a : scalar) : bool :=
  match a with
  | SNone => false
  | SStr s => negb (String.eqb s "")
  | SUuid _ => true
  | SDate _ => true
  end.

Definition truthy (v : pyval) : bool :=
  match v with
  | Scalar a => truthy_scalar a
  | StrList [] => false
  | StrList (_ :: _) => true
  | UserRec _ => true
  | DbHandle => true
  end.

(** ** Strings *)

(** [" " in s] *)
Fixpoint contains_space (s : string) : bool :=
  match s with
  | EmptyString => false
  | String c r => Ascii.eqb c " " || contains_space r
  end.

(** [s.split(" ")]: cut at every single space, empty pieces kept. *)
Fixpoint split_space (s : string) : list string :=
  match s with
  | EmptyString => [EmptyString]
  | String c r =>
      if Ascii.eqb c " " then EmptyString :: split_space r
      else match split_space r with
           | w :: ws => String c w :: ws
           | [] => [String c EmptyString]
           end
  end.

(** [" ".join(l)] *)
Definition join_space (l : list string) : string := String.concat " " l.

Fixpoint is_ascii (s : string) : bool :=
  match s with
  | EmptyString => true
  | String c r => (nat_of_ascii c <? 128)%nat && is_ascii r
  end.

Fixpoint starts_with (p s : string) : bool :=
  match p, s with
  | EmptyString, _ => true
  | String a p', String b s' => Ascii.eqb a b && starts_with p' s'
  | String _ _, EmptyString => false
  end.

(** ** Exceptions and effects *)

Inductive exn : Type :=
| TypeError
| AttributeError
| KeyError
| RuntimeError
| External (what : string).

(** A computation over a state [S] either returns a value or raises; in
    both cases the state reached so far survives. *)
Inductive outcome (S A : Type) : Type :=
| Ok (a : A) (s : S)
| Raise (e : exn) (s : S).
Arguments Ok {S A} a s.
Arguments Raise {S A} e s.

Definition M (S A : Type) : Type := S -> outcome S A.

Definition ret {S A} (a : A) : M S A := fun s => Ok a s.

Definition bind {S A B} (c : M S A) (k : A -> M S B) : M S B :=
  fun s => match c s with
           | Ok a s' => k a s'
           | Raise e s' => Raise e s'
           end.

Definition raise {S A} (e : exn) : M S A := fun s => Raise e s.

Definition gets {S A} (f : S -> A) : M S A := fun s => Ok (f s) s.

Definition modify {S} (f : S -> S) : M S unit := fun s => Ok tt (f s).

(** [try: c except Exception as e: h e] *)
Definition try_except {S A} (c : M S A) (h : exn -> M S A) : M S A :=
  fun s => match c s with
           | Ok a s' => Ok a s'
           | Raise e s' => h e s'
           end.

(** An environment call that either raises or yields a value. *)
Definition lift_sum {S A} (r : exn + A) : M S A :=
  match r with
  | inl e => raise e
  | inr a => ret a
  end.

Declare Scope monad_scope.
Delimit Scope monad_scope with monad.
Notation "x <- c ;; k" := (bind c (fun x => k))
  (at level 61, c at next level, right associativity) : monad_scope.
Notation "c ;; k" := (bind c (fun _ => k))
  (at level 61, right associativity) : monad_scope.
Open Scope monad_scope.

Definition final {S A} (o : outcome S A) : S :=
  match o with
  | Ok _ s => s
  | Raise _ s => s
  end.

Definition raises {S A} (o : outcome S A) : bool :=
  match o with
  | Ok _ _ => false
  | Raise _ _ => true
  end.

(** ** Dictionaries

    A Python [dict] keeps insertion order; it is an association list
    without repeated keys. *)
Section Dict.
Context {V : Type}.

Definition dict : Type := list (scalar * V).

Fixpoint dict_get (k : scalar) (d : dict) : option V :=
  match d with
  | [] => None
  | (k', v) :: r => if scalar_eqb k k' then Some v else dict_get k r
  end.

(** [d.update({k: v})]: the value is replaced where the key already is,
    a new key goes to the end. *)
Fixpoint dict_update (k : scalar) (v : V) (d : dict) : dict :=
  match d with
  | [] => [(k, v)]
  | (k', v') :: r =>
      if scalar_eqb k k' then (k', v) :: r else (k', v') :: dict_update k v r
  end.

(** [del d[k]] on a key that is there. *)
Fixpoint dict_del (k : scalar) (d : dict) : dict :=
  match d with
  | [] => []
  | (k', v') :: r =>
      if scalar_eqb k k' then r else (k', v') :: dict_del k r
  end.

Definition dict_keys (d : dict) : list scalar := map fst d.
End Dict.
Arguments dict V : clear implicits.

(** ** Data model *)

Module NotificationStore.
(** Modelled from the spec: one row of the notification table.  The mapped
    class [NotificationStore] lives in [will.schema], which is not part of
    the sources at hand.  The spec gives the columns: uid, message, title,
    trigger_time, scope, created, summary, user_id; it states no constraint
    on them. *)
Record t : Type := mk {
  uid : scalar;
  message : string;
  title : string;
  trigger_time : Z;
  scope : string;
  created : scalar;
  summary : pyval;
  user_id : scalar
}.

Definition set_user_id (x : scalar) (r : t) : t :=
  mk (uid r) (message r) (title r) (trigger_time r) (scope r) (created r)
     (summary r) x.
End NotificationStore.

(** An instance of [Notification]; the slots in the order [__init__]
    assigns them. *)
Record notification : Type := mkNotification {
  title : string;
  message : string;
  scope : string;
  db : pyval;
  _summary : pyval;
  created : scalar;
  uid : scalar;
  trigger_time : Z;
  user_data : pyval
}.

Definition set_summary (v : pyval) (n : notification) : notification :=
  mkNotification (title n) (message n) (scope n) (db n) v (created n)
                 (uid n) (trigger_time n) (user_data n).

(** The request [email] posts to the mail relay. *)
Record mail : Type := mkMail {
  mail_url : string;
  mail_auth : string * string;
  mail_from : string;
  mail_to : string;
  mail_subject : pyval;
  mail_text : string
}.

Inductive level : Type := INFO | ERROR.

(** The five messages the module logs, with the values formatted in. *)
Inductive log_text : Type :=
| SendingTo (name : string)
| NoMethodForScope (method : string)
| NoNotificationsFound
| SendingFor (name : string)
| CouldntSend (name : string) (e : exn).

(** What the module reads and writes: the class attributes
    [_notifications] and [running] of [NotificationHandler], the committed
    rows of the store and the sessions left open on it, the clock, the
    next [uuid1], the log and the requests the relay accepted. *)
Record world : Type := mkWorld {
  _notifications : dict notification;
  running : bool;
  table : list NotificationStore.t;
  open_sessions : nat;
  clock : Z;
  next_uuid : N;
  log : list (level * log_text);
  outbox : list mail
}.

Definition set_notifications (f : dict notification -> dict notification)
  (w : world) : world :=
  mkWorld (f (_notifications w)) (running w) (table w) (open_sessions w)
          (clock w) (next_uuid w) (log w) (outbox w).

Definition set_table (f : list NotificationStore.t -> list NotificationStore.t)
  (w : world) : world :=
  mkWorld (_notifications w) (running w) (f (table w)) (open_sessions w)
          (clock w) (next_uuid w) (log w) (outbox w).

Definition set_open_sessions (f : nat -> nat) (w : world) : world :=
  mkWorld (_notifications w) (running w) (table w) (f (open_sessions w))
          (clock w) (next_uuid w) (log w) (outbox w).

Definition set_clock (t : Z) (w : world) : world :=
  mkWorld (_notifications w) (running w) (table w) (open_sessions w)
          t (next_uuid w) (log w) (outbox w).

Definition set_next_uuid (u : N) (w : world) : world :=
  mkWorld (_notifications w) (running w) (table w) (open_sessions w)
          (clock w) u (log w) (outbox w).

Definition add_log (l : level * log_text) (w : world) : world :=
  mkWorld (_notifications w) (running w) (table w) (open_sessions w)
          (clock w) (next_uuid w) (log w ++ [l]) (outbox w).

Definition add_outbox (m : mail) (w : world) : world :=
  mkWorld (_notifications w) (running w) (table w) (open_sessions w)
          (clock w) (next_uuid w) (log w) (outbox w ++ [m]).

(** ** Collaborators *)

Inductive store_op : Type := OpSession | OpQuery | OpAdd | OpCommit | OpClose.

(** Modelled from the spec: what the module calls and the sources at hand
    do not define.  [tools.ascii_encode] and [tools.load_key] live in
    [will.tools], which is not part of the sources at hand.  The spec says
    of the first that text fields are normalised to a safe transport
    encoding, so on text it is a function from text to text, [ascii_text];
    what it does with anything else is left open, [ascii_other].  The
    second loads the relay's key and endpoint from a keyed configuration
    store.  [relay] is [requests.post]: [None] when the request goes
    through.  [store_fault] tells which operations of a session raise. *)
Record env : Type := mkEnv {
  ascii_text : string -> string;
  ascii_other : pyval -> exn + pyval;
  load_key : pyval -> exn + (string * string);
  relay : mail -> option exn;
  store_fault : store_op -> option exn
}.

(** [tools.ascii_encode] *)
Definition ascii_encode (E : env) (v : pyval) : exn + pyval :=
  match v with
  | Scalar (SStr s) => inr (Str (ascii_text E s))
  | _ => ascii_other E v
  end.

(** [logging]: [log.info], [log.error] *)
Definition log_info (t : log_text) : M world unit := modify (add_log (INFO, t)).
Definition log_error (t : log_text) : M world unit := modify (add_log (ERROR, t)).

(** [time.time()] *)
Definition time_time : M world Z := gets clock.

(** [time.sleep]: the caller waits, nothing the module owns changes. *)
Definition time_sleep (milliseconds : Z) : M world unit := ret tt.

(** [datetime.datetime.now()] *)
Definition datetime_now : M world scalar := t <- gets clock ;; ret (SDate t).

(** [uuid.uuid1()]: a token not handed out before. *)
Definition uuid1 : M world scalar :=
  u <- gets next_uuid ;;
  modify (set_next_uuid (N.succ u)) ;;
  ret (SUuid u).

(** [x["username"]]: the user record answers, every other value here
    refuses the subscript. *)
Definition subscript_username {S} (x : pyval) : M S string :=
  match x with
  | UserRec u => ret (username u)
  | _ => raise TypeError
  end.

(** [x.attr] for the attributes of the user record. *)
Definition getattr_user {S} (x : pyval) : M S user :=
  match x with
  | UserRec u => ret u
  | _ => raise AttributeError
  end.

(** [d[k]] on a settings map. *)
Fixpoint settings_get {S} (k : string) (d : list (string * string)) : M S string :=
  match d with
  | [] => raise KeyError
  | (k', v) :: r => if String.eqb k k' then ret v else settings_get k r
  end.

(** *** Sessions of the durable store

    The store is the database behind [self.db]: a session queries all rows,
    adds rows and commits them; rows a session added are pending until its
    commit, and any of its operations may raise. *)
Section Store.
Variable E : env.

Definition store_guard (op : store_op) : M world unit :=
  match store_fault E op with
  | Some e => raise e
  | None => ret tt
  end.

(** [self.db()] *)
Definition db_session : M world (list NotificationStore.t) :=
  store_guard OpSession ;;
  modify (set_open_sessions S) ;;
  ret [].

(** [session.query(NotificationStore).all()] *)
Definition session_query_all : M world (list NotificationStore.t) :=
  store_guard OpQuery ;;
  gets table.

(** [session.add(row)] *)
Definition session_add (pending : list NotificationStore.t)
  (row : NotificationStore.t) : M world (list NotificationStore.t) :=
  store_guard OpAdd ;;
  ret (pending ++ [row]).

(** [session.commit()] *)
Definition session_commit (pending : list NotificationStore.t) : M world unit :=
  store_guard OpCommit ;;
  modify (set_table (fun rows => rows ++ pending)).

(** [session.close()] *)
Definition session_close : M world unit :=
  store_guard OpClose ;;
  modify (set_open_sessions pred).

(** Modelled from the spec: [transactions.delete_notification], which is
    not part of the sources at hand; the store's delete-by-id. *)
Definition delete_notification (k : scalar) : M world unit :=
  modify (set_table (filter (fun r => negb (scalar_eqb (NotificationStore.uid r) k)))).
End Store.

(** ** Methods and the objects they are called on

    A method of [Notification] works on the object and on the world. *)
Definition on_self {A} (c : M notification A) : M (notification * world) A :=
  fun s => match c (fst s) with
           | Ok a n => Ok a (n, snd s)
           | Raise e n => Raise e (n, snd s)
           end.

Definition on_world {A} (c : M world A) : M (notification * world) A :=
  fun s => match c (snd s) with
           | Ok a w => Ok a (fst s, w)
           | Raise e w => Raise e (fst s, w)
           end.

(** The live set holds references: what a method assigns to an object that
    sits under key [k] is seen through the live set. *)
Fixpoint dict_store {V} (k : scalar) (v : V) (d : dict V) : dict V :=
  match d with
  | [] => []
  | (k', v') :: r =>
      if scalar_eqb k k' then (k', v) :: r else (k', v') :: dict_store k v r
  end.

Definition method_call {A} (k : scalar) (obj : notification)
  (c : M (notification * world) A) : M world A :=
  fun w => match c (obj, w) with
           | Ok a s => Ok a (set_notifications (dict_store k (fst s)) (snd s))
           | Raise e s => Raise e (set_notifications (dict_store k (fst s)) (snd s))
           end.

(** ** class Notification *)
Module Notification.
Section WithEnv.
Variable E : env.

(** [__init__(self, message, title, trigger_time, scope, db, user_data,
    summary=None, uid=None, created=None)] *)
Definition __init__ (message title : string) (trigger_time : Z)
  (scope : string) (db user_data summary : pyval) (uid created : scalar)
  : M world notification :=
  let title := ascii_text E ("W.I.L.L - " ++ title)%string in
  let message := ascii_text E message in
  created <- (if truthy_scalar created then ret created else datetime_now) ;;
  uid <- (if truthy_scalar uid then ret uid else uuid1) ;;
  ret (mkNotification title message scope db summary created uid
                      trigger_time user_data).

(** [time_reached] *)
Definition time_reached (self : notification) : M world bool :=
  now <- time_time ;;
  ret (trigger_time self <=? now).

(** [summary] *)
Definition summary : M notification pyval :=
  cached <- gets _summary ;;
  (if negb (truthy cached) then
     message <- gets message ;;
     (if contains_space message then
        let message_words := split_space message in
        if (5 <=? List.length message_words)%nat
        then modify (set_summary (StrList (firstn 4 message_words)))
        else modify (set_summary (Str message))
      else modify (set_summary (Str message))) ;;
     raw <- gets _summary ;;
     encoded <- lift_sum (ascii_encode E raw) ;;
     modify (set_summary encoded)
   else ret tt) ;;
  gets _summary.

(** [email] *)
Definition email : M (notification * world) unit :=
  self <- gets fst ;;
  key_url <- lift_sum (load_key E (db self)) ;;
  u <- getattr_user (user_data self) ;;
  email <- settings_get "email" (settings u) ;;
  u1 <- getattr_user (user_data self) ;;
  let first_name := first_name u1 in
  u2 <- getattr_user (user_data self) ;;
  let last_name := last_name u2 in
  subject <- on_self summary ;;
  self <- gets fst ;;
  let request :=
    mkMail (snd key_url) ("api", fst key_url)
           "will <postmaster@willbeddow.com>"
           (first_name ++ " " ++ last_name ++ " <" ++ email ++ ">")%string
           subject (message self) in
  match relay E request with
  | Some e => raise e
  | None => on_world (modify (add_outbox request))
  end.

(** [send] *)
Definition send : M (notification * world) unit :=
  self <- gets fst ;;
  name <- subscript_username (user_data self) ;;
  on_world (log_info (SendingTo name)) ;;
  let not_method := scope self in
  if String.eqb not_method "email" then email
  else on_world (log_error (NoMethodForScope not_method)).
End WithEnv.
End Notification.

(** ** class NotificationHandler *)
Module NotificationHandler.
Section WithEnv.
Variable E : env.

(** [notify] *)
Definition notify (not_object : notification) : M world unit :=
  let not_uid := uid not_object in
  modify (set_notifications (dict_update not_uid not_object)) ;;
  now <- time_time ;;
  if 300 <? trigger_time not_object - now then
    session <- db_session E ;;
    summary <- method_call not_uid not_object (on_self (Notification.summary E)) ;;
    let notification_store :=
      NotificationStore.mk not_uid (message not_object) (title not_object)
        (trigger_time not_object) (scope not_object) (created not_object)
        summary SNone in
    u <- getattr_user (user_data not_object) ;;
    let notification_store :=
      NotificationStore.set_user_id (SStr (username u)) notification_store in
    session <- session_add E session notification_store ;;
    session_commit E session ;;
    session_close E
  else ret tt.

(** The call in the body of the loop of [_pull_notificatons]: eight
    positional arguments for the nine parameters of [__init__]. *)
Definition reload (row : NotificationStore.t) : M world notification :=
  let user_set := NotificationStore.user_id row in
  let datetime_instance := NotificationStore.created row in
  Notification.__init__ E
    (NotificationStore.message row)
    (NotificationStore.title row)
    (NotificationStore.trigger_time row)
    (NotificationStore.scope row)
    (Scalar user_set)
    (NotificationStore.summary row)
    (Scalar (NotificationStore.uid row))
    datetime_instance
    SNone.

Fixpoint reload_all (notifications : list NotificationStore.t) : M world unit :=
  match notifications with
  | [] => ret tt
  | row :: rest =>
      not_class <- reload row ;;
      modify (set_notifications
                (dict_update (NotificationStore.uid row) not_class)) ;;
      reload_all rest
  end.

(** [_pull_notificatons] *)
Definition _pull_notificatons : M world unit :=
  session <- db_session E ;;
  notifications <- session_query_all E ;;
  (match notifications with
   | _ :: _ => reload_all notifications
   | [] => log_info NoNotificationsFound
   end) ;;
  session_close E.

(** [del self._notifications[not_uid]] *)
Definition delitem (not_uid : scalar) : M world unit :=
  live <- gets _notifications ;;
  match dict_get not_uid live with
  | Some _ => modify (set_notifications (dict_del not_uid))
  | None => raise KeyError
  end.

(** [self.graph]: neither the class nor [__init__] gives the handler an
    attribute of that name. *)
Definition graph : M world unit := raise AttributeError.

(** The body of the [for] loop of [_wait_notifications]. *)
Definition visit (not_uid : scalar) (notification : notification) : M world unit :=
  reached <- Notification.time_reached notification ;;
  if reached then
    name <- subscript_username (user_data notification) ;;
    log_info (SendingFor name) ;;
    try_except
      (method_call not_uid notification (Notification.send E))
      (fun e =>
         name <- subscript_username (user_data notification) ;;
         log_error (CouldntSend name e)) ;;
    delitem not_uid ;;
    graph ;;
    delete_notification (uid notification)
  else ret tt.

(** [for not_uid, notification in self._notifications.items()]: the
    iterator refuses to go on once the dictionary has changed size. *)
Fixpoint scan (used : nat) (items : list (scalar * notification)) : M world unit :=
  size <- gets (fun w => List.length (_notifications w)) ;;
  if negb (Nat.eqb size used) then raise RuntimeError
  else match items with
       | [] => ret tt
       | (not_uid, notification) :: rest =>
           visit not_uid notification ;;
           scan used rest
       end.

(** One turn of the [while] loop of [_wait_notifications]. *)
Definition turn : M world unit :=
  live <- gets _notifications ;;
  match live with
  | _ :: _ => scan (List.length live) live ;; time_sleep 200
  | [] => time_sleep 1000
  end.

(** [_wait_notifications], watched for as many turns as there are clock
    readings; the clock is read once per turn. *)
Fixpoint _wait_notifications (readings : list Z) : M world unit :=
  match readings with
  | [] => ret tt
  | t :: later =>
      go <- gets running ;;
      if go then modify (set_clock t) ;; turn ;; _wait_notifications later
      else ret tt
  end.

(** [__init__]: load what the store holds; the thread it then starts is
    [_wait_notifications]. *)
Definition __init__ : M world unit := _pull_notificatons.
End WithEnv.
End NotificationHandler.

(** ** A concrete environment *)

(** Modelled from the spec: text is normalised to ASCII; here by leaving
    out every character that is not ASCII. *)
Fixpoint ascii_ignore (s : string) : string :=
  match s with
  | EmptyString => EmptyString
  | String c r =>
      if (nat_of_ascii c <? 128)%nat then String c (ascii_ignore r)
      else ascii_ignore r
  end.

(** An environment in which the store and the relay work; the encoder is
    one written for text only, and has nothing to offer for other values. *)
Definition env_up : env :=
  mkEnv ascii_ignore
        (fun _ => inl AttributeError)
        (fun _ => inr ("key-0", "https://relay.example/messages"))
        (fun _ => None)
        (fun _ => None).

(** The same, with a store whose commits fail. *)
Definition env_commit_down : env :=
  mkEnv ascii_ignore
        (fun _ => inl AttributeError)
        (fun _ => inr ("key-0", "https://relay.example/messages"))
        (fun _ => None)
        (fun op => match op with
                   | OpCommit => Some (External "OperationalError")
                   | _ => None
                   end).

(** The same as [env_up], with a relay that refuses. *)
Definition env_relay_down : env :=
  mkEnv ascii_ignore
        (fun _ => inl AttributeError)
        (fun _ => inr ("key-0", "https://relay.example/messages"))
        (fun _ => Some (External "ConnectionError"))
        (fun _ => None).

Definition alice : user :=
  mkUser "alice" "Alice" "Liddell" [("email", "alice@example.org")].

(** A process that has just started, at time [t], over the rows [rows]. *)
Definition boot (t : Z) (rows : list NotificationStore.t) : world :=
  mkWorld [] true rows 0 t 1%N [] [].

(** ** Vocabulary of the properties *)

(** What [summary] holds in [self._summary] when it calls the encoder. *)
Definition summary_raw (message : string) : pyval :=
  if contains_space message then
    if (5 <=? List.length (split_space message))%nat
    then StrList (firstn 4 (split_space message))
    else Str message
  else Str message.

(** The summary as the specification words it: the first four tokens
    joined as they stand in the message, or the whole message. *)
Definition summary_by_spec (message : string) : pyval :=
  if (5 <=? List.length (split_space message))%nat
  then Str (join_space (firstn 4 (split_space message)))
  else Str message.

(** [k] reads of [summary], one after the other. *)
Fixpoint reads (E : env) (k : nat) : M notification (list pyval) :=
  match k with
  | O => ret []
  | S k' =>
      v <- Notification.summary E ;;
      vs <- reads E k' ;;
      ret (v :: vs)
  end.

(** The row [notify] writes for [n], given the summary it read and the
    user record it found. *)
Definition stored_row (n : notification) (s : pyval) (u : user) : NotificationStore.t :=
  NotificationStore.mk (uid n) (message n) (title n) (trigger_time n) (scope n)
                       (created n) s (SStr (username u)).

(** One more session left open when the call raised, none otherwise. *)
Definition leak {A} (o : outcome world A) : nat := if raises o then 1%nat else 0%nat.

(** What a method of a notification leaves alone in the world: the live
    set, the store and its sessions, the clock, the running flag. *)
Definition same_registry (w w' : world) : Prop :=
  _notifications w' = _notifications w
  /\ table w' = table w
  /\ open_sessions w' = open_sessions w
  /\ clock w' = clock w
  /\ running w' = running w.

(** [time_reached] at the clock reading of [w]. *)
Definition due (w : world) (kv : scalar * notification) : bool :=
  trigger_time (snd kv) <=? clock w.

(** What the properties below ask of the text encoder: it works character
    by character, leaves ASCII text alone and yields ASCII text. *)
Record text_normaliser (f : string -> string) : Prop := {
  norm_app : forall a b, f (a ++ b)%string = (f a ++ f b)%string;
  norm_ascii : forall s, is_ascii s = true -> f s = s;
  norm_range : forall s, is_ascii (f s) = true
}.

(** *** Sample objects *)

(** A store whose queries fail. *)
Definition env_query_down : env :=
  mkEnv ascii_ignore
        (fun _ => inl AttributeError)
        (fun _ => inr ("key-0", "https://relay.example/messages"))
        (fun _ => None)
        (fun op => match op with
                   | OpQuery => Some (External "OperationalError")
                   | _ => None
                   end).

(** [Notification("Buy milk", "Reminder", 1400, "sms", db, alice)], built
    at time 1000 with uid 8. *)
Definition milk : notification :=
  mkNotification "W.I.L.L - Reminder" "Buy milk" "sms" DbHandle None_
                 (SDate 1000) (SUuid 8) 1400 (UserRec alice).

(** [milk] once its summary has been read. *)
Definition milk_read : notification := set_summary (Str "Buy milk") milk.

(** The row [notify] writes for [milk]. *)
Definition milk_row : NotificationStore.t :=
  NotificationStore.mk (SUuid 8) "Buy milk" "W.I.L.L - Reminder" 1400 "sms"
                       (SDate 1000) (Str "Buy milk") (SStr "alice").

(** What [_pull_notificatons] makes of [milk_row] at time 2000. *)
Definition milk_reloaded : notification :=
  mkNotification "W.I.L.L - W.I.L.L - Reminder" "Buy milk" "sms" (Str "alice")
                 (Scalar (SUuid 8)) (SDate 2000) (SDate 1000) 1400
                 (Str "Buy milk").

(** The scenario of the specification:
    [Notification("Hello world, this is a test message", "Reminder",
    now + 400, "email", db, alice)] with [now = 1000] and uid 7. *)
Definition hello : notification :=
  mkNotification "W.I.L.L - Reminder" "Hello world, this is a test message"
                 "email" DbHandle None_ (SDate 1000) (SUuid 7) 1400
                 (UserRec alice).

(** A reminder sent by mail, with its row. *)
Definition dentist : notification :=
  mkNotification "W.I.L.L - Reminder" "Dentist at nine" "email" DbHandle
                 (Str "Dentist at nine") (SDate 1000) (SUuid 9) 1400
                 (UserRec alice).

Definition dentist_row : NotificationStore.t :=
  NotificationStore.mk (SUuid 9) "Dentist at nine" "W.I.L.L - Reminder" 1400
                       "email" (SDate 1000) (Str "Dentist at nine")
                       (SStr "alice").

(** The process at time 1500: [dentist] is live and stored, and due. *)
Definition dentist_due : world :=
  mkWorld [(SUuid 9, dentist)] true [dentist_row] 0 1500 1%N [] [].

(** *** Vocabulary of the further properties *)

(** The value a settings map holds for a key, if any. *)
Fixpoint assoc (k : string) (d : list (string * string)) : option string :=
  match d with
  | [] => None
  | (k', v) :: r => if String.eqb k k' then Some v else assoc k r
  end.

(** The number of spaces in a text. *)
Fixpoint spaces (s : string) : nat :=
  match s with
  | EmptyString => O
  | String c r => if Ascii.eqb c " " then S (spaces r) else spaces r
  end.

(** The state of the process after the clock readings [readings]. *)
Definition clock_after (readings : list Z) (w : world) : world :=
  fold_left (fun w t => set_clock t w) readings w.

(** What the loop logs about a delivery attempt, besides what [send] logs. *)
Definition delivery_report (name : string)
  (o : outcome (notification * world) unit) : list (level * log_text) :=
  match o with
  | Ok _ _ => []
  | Raise e _ => [(ERROR, CouldntSend name e)]
  end.

(** * The session routes of [API.py] *)

(** A value of the [data] object of a response. *)
Inductive jval : Type :=
| JBool (b : bool)
| JKeys (l : list scalar).

(** The dictionary a route hands to [tools.return_json]. *)
Record response : Type := mkResponse {
  rtype : option string;
  rtext : option string;
  rdata : list (string * jval)
}.

(** What the routes read and write outside the request: [core.sessions],
    each session a dictionary of which the routes read texts; the users
    table behind [db], each row with its username and its password hash;
    the log. *)
Record api : Type := mkApi {
  core_sessions : dict (list (string * string));
  users : list (string * string);
  api_log : list (level * string)
}.

(** What the routes call and the sources at hand do not define, taken as
    parameters: [tools.check_string], which vets a text of the request, and
    [bcrypt.checkpw], which compares a password with a hash, or raises on a
    hash it cannot read. *)
Record api_env : Type := mkApiEnv {
  check_string : string -> bool;
  checkpw : string -> string -> exn + bool
}.

Module API.

Definition set_rtype (t : string) (r : response) : response :=
  mkResponse (Some t) (rtext r) (rdata r).

Definition set_rtext (t : string) (r : response) : response :=
  mkResponse (rtype r) (Some t) (rdata r).

(** [response["data"].update({k: v})] *)
Fixpoint data_put (k : string) (v : jval) (d : list (string * jval))
  : list (string * jval) :=
  match d with
  | [] => [(k, v)]
  | (k', v') :: r =>
      if String.eqb k k' then (k', v) :: r else (k', v') :: data_put k v r
  end.

Definition data_update (k : string) (v : jval) (r : response) : response :=
  mkResponse (rtype r) (rtext r) (data_put k v (rdata r)).

(** [response["data"][k].append(x)] *)
Fixpoint data_push (k : string) (x : scalar) (d : list (string * jval))
  : list (string * jval) :=
  match d with
  | [] => []
  | (k', JKeys l) :: r =>
      if String.eqb k k' then (k', JKeys (l ++ [x])) :: r
      else (k', JKeys l) :: data_push k x r
  | kv :: r => kv :: data_push k x r
  end.

Definition data_append (k : string) (x : scalar) (r : response) : response :=
  mkResponse (rtype r) (rtext r) (data_push k x (rdata r)).

(** A route works on the response it is building and on the process. *)
Definition route (A : Type) : Type := M (response * api) A.

Definition on_response (f : response -> response) : route unit :=
  modify (fun s => (f (fst s), snd s)).

Definition api_info (line : string) : route unit :=
  modify (fun s => (fst s, mkApi (core_sessions (snd s)) (users (snd s))
                                 (api_log (snd s) ++ [(INFO, line)]))).

(** [request.form[k]] *)
Fixpoint form_get (k : string) (form : list (string * string)) : route string :=
  match form with
  | [] => raise KeyError
  | (k', v) :: r => if String.eqb k k' then ret v else form_get k r
  end.

(** [d[k]] on a session *)
Fixpoint session_get (k : string) (d : list (string * string)) : route string :=
  match d with
  | [] => raise KeyError
  | (k', v) :: r => if String.eqb k k' then ret v else session_get k r
  end.

(** [db['users'].find_one(username=name)] *)
Fixpoint find_one (name : string) (rows : list (string * string))
  : option (string * string) :=
  match rows with
  | [] => None
  | (u, h) :: r => if String.eqb u name then Some (u, h) else find_one name r
  end.

(** [try: c except KeyError: h] *)
Definition except_KeyError {S A} (c : M S A) (h : M S A) : M S A :=
  fun s => match c s with
           | Raise KeyError s' => h s'
           | o => o
           end.

(** A route, from the empty response to the one it returns. *)
Definition serve (body : route unit) (a : api) : outcome api response :=
  match body (mkResponse None None [], a) with
  | Ok _ s => Ok (fst s) (snd s)
  | Raise e s => Raise e (snd s)
  end.

Section WithEnv.
Variable E : api_env.

(** The loop of [get_sessions] over [core.sessions]. *)
Fixpoint collect (username : string) (sessions : dict (list (string * string)))
  : route unit :=
  match sessions with
  | [] => ret tt
  | (session, entries) :: rest =>
      owner <- session_get "username" entries ;;
      (if String.eqb owner username
       then on_response (data_append "sessions" session)
       else ret tt) ;;
      collect username rest
  end.

(** [get_sessions] *)
Definition get_sessions (form : list (string * string)) : api -> outcome api response :=
  serve
    (api_info ":API:/api/get_sessions" ;;
     sessions <- gets (fun s => core_sessions (snd s)) ;;
     except_KeyError
       (username <- form_get "username" form ;;
        password <- form_get "password" form ;;
        rows <- gets (fun s => users (snd s)) ;;
        db_hash <- match find_one username rows with
                   | Some row => ret (snd row)
                   | None => raise TypeError
                   end ;;
        user_auth <- lift_sum (checkpw E password db_hash) ;;
        if (user_auth : bool) then
          on_response (data_update "sessions" (JKeys [])) ;;
          collect username sessions ;;
          on_response (set_rtype "success") ;;
          on_response (set_rtext "Fetched active sessions")
        else
          on_response (set_rtype "error") ;;
          on_response (set_rtext "Invalid username/password combination"))
       (on_response (set_rtype "error") ;;
        on_response (set_rtext "Couldn't find username and password in request"))).

(** [end_session] *)
Definition end_session (form : list (string * string)) : api -> outcome api response :=
  serve
    (api_info ":API:/api/end_session" ;;
     except_KeyError
       (session_id <- form_get "session_id" form ;;
        sessions <- gets (fun s => core_sessions (snd s)) ;;
        match dict_get (SStr session_id) sessions with
        | Some _ =>
            api_info (":" ++ session_id ++ ":Ending session") ;;
            modify (fun s => (fst s,
                      mkApi (dict_del (SStr session_id) (core_sessions (snd s)))
                            (users (snd s)) (api_log (snd s)))) ;;
            on_response (set_rtype "success") ;;
            on_response (set_rtext "Ended session")
        | None =>
            on_response (set_rtype "error") ;;
            on_response
              (set_rtext ("Session id " ++ session_id
                          ++ " wasn't found in core.sessions"))
        end)
       (on_response (set_rtype "error") ;;
        on_response (set_rtext "Couldn't find session id in request data"))).

(** [check_session] *)
Definition check_session (form : list (string * string)) : api -> outcome api response :=
  serve
    (api_info ":API:/api/check_session" ;;
     except_KeyError
       (session_id <- form_get "session_id" form ;;
        sessions <- gets (fun s => core_sessions (snd s)) ;;
        let session_valid :=
          match dict_get (SStr session_id) sessions with
          | Some _ => true
          | None => false
          end in
        on_response (data_update "valid" (JBool session_valid)) ;;
        on_response (set_rtype "success") ;;
        if check_string E session_id then
          if session_valid
          then on_response (set_rtext ("Session id " ++ session_id ++ " is valid"))
          else on_response (set_rtext ("Session id " ++ session_id ++ " is invalid"))
        else
          on_response (set_rtype "error") ;;
          on_response (set_rtext "Invalid input"))
       (on_response (set_rtype "error") ;;
        on_response (set_rtext "Couldn't find session_id in request data") ;;
        on_response (data_update "valid" (JBool false)))).
End WithEnv.
End API.

(** The sessions of a user, as [get_sessions] is to list them. *)
Definition owned_by (name : string) (sessions : dict (list (string * string)))
  : list scalar :=
  map fst (filter (fun kv => match assoc "username" (snd kv) with
                             | Some owner => String.eqb owner name
                             | None => false
                             end) sessions).

(** A permissive text check and a password check that compares texts. *)
Definition api_env_plain : api_env :=
  mkApiEnv (fun _ => true) (fun p h => inr (String.eqb p h)).

(** A process with two sessions of alice and one of bob. *)
Definition api_sample : api :=
  mkApi [(SStr "s1", [("username", "alice"); ("client", "API-POST")]);
         (SStr "s2", [("username", "bob")]);
         (SStr "s3", [("username", "alice")])]
        [("alice", "wonderland"); ("bob", "builder")]
        [].

(** * Properties *)

(** ** Dictionaries *)
Section DictFacts.
Context {V : Type}.
Implicit Types (d : dict V) (k : scalar) (v : V).

Lemma scalar_eqb_refl k : scalar_eqb k k = true.
Proof. unfold scalar_eqb. destruct (scalar_eq_dec k k); congruence. Qed.

Lemma scalar_eqb_eq k k' : scalar_eqb k k' = true <-> k = k'.
Proof.
  unfold scalar_eqb. destruct (scalar_eq_dec k k'); split; congruence.
Qed.

Lemma dict_get_update k v d : dict_get k (dict_update k v d) = Some v.
Proof.
  induction d as [|[k' v'] r IH]; simpl.
  - now rewrite scalar_eqb_refl.
  - destruct (scalar_eqb k k') eqn:Hk; simpl; rewrite Hk; auto.
Qed.

Lemma dict_get_update_other k k' v d :
  k <> k' -> dict_get k' (dict_update k v d) = dict_get k' d.
Proof.
  intros Hne. induction d as [|[k0 v0] r IH]; simpl.
  - destruct (scalar_eqb k' k) eqn:Hk; [|reflexivity].
    apply scalar_eqb_eq in Hk. congruence.
  - destruct (scalar_eqb k k0) eqn:Hk; simpl.
    + apply scalar_eqb_eq in Hk. subst k0.
      destruct (scalar_eqb k' k) eqn:Hk'; [|reflexivity].
      apply scalar_eqb_eq in Hk'. congruence.
    + now rewrite IH.
Qed.

Lemma dict_store_update k v v' d :
  dict_store k v' (dict_update k v d) = dict_update k v' d.
Proof.
  induction d as [|[k' v0] r IH]; simpl.
  - now rewrite scalar_eqb_refl.
  - destruct (scalar_eqb k k') eqn:Hk; simpl; rewrite Hk; congruence.
Qed.

Lemma dict_del_store k v d : dict_del k (dict_store k v d) = dict_del k d.
Proof.
  induction d as [|[k' v0] r IH]; simpl; [reflexivity|].
  destruct (scalar_eqb k k') eqn:Hk; simpl; rewrite Hk; congruence.
Qed.

Lemma dict_get_store k v d :
  dict_get k (dict_store k v d) = option_map (fun _ => v) (dict_get k d).
Proof.
  induction d as [|[k' v0] r IH]; simpl; [reflexivity|].
  destruct (scalar_eqb k k') eqn:Hk; simpl; rewrite Hk; auto.
Qed.

Lemma dict_store_length k v d : List.length (dict_store k v d) = List.length d.
Proof.
  induction d as [|[k' v0] r IH]; simpl; [reflexivity|].
  destruct (scalar_eqb k k'); simpl; congruence.
Qed.

(** Updating a key that is there replaces in place: no key is added and
    none moves. *)
Lemma dict_keys_update_present k v d :
  dict_get k d <> None -> dict_keys (dict_update k v d) = dict_keys d.
Proof.
  unfold dict_keys. induction d as [|[k' v0] r IH]; simpl; [congruence|].
  destruct (scalar_eqb k k') eqn:Hk; simpl; [reflexivity|].
  intros H. now rewrite IH.
Qed.

Lemma dict_get_in_keys k d : dict_get k d <> None <-> In k (dict_keys d).
Proof.
  unfold dict_keys. induction d as [|[k' v0] r IH]; simpl.
  - split; [congruence | tauto].
  - destruct (scalar_eqb k k') eqn:Hk.
    + apply scalar_eqb_eq in Hk. subst. split; [auto | congruence].
    + rewrite IH. split; [auto | intros [H|H]; [|exact H]].
      subst. rewrite scalar_eqb_refl in Hk. discriminate.
Qed.
End DictFacts.

(** ** Text *)

Lemma norm_idem f : text_normaliser f -> forall s, f (f s) = f s.
Proof. intros [_ Hfix Hran] s. apply Hfix, Hran. Qed.

Lemma norm_prefix f :
  text_normaliser f ->
  forall s, f ("W.I.L.L - " ++ s)%string = ("W.I.L.L - " ++ f s)%string.
Proof.
  intros [Happ Hfix _] s. rewrite Happ. f_equal. now apply Hfix.
Qed.

Lemma ascii_ignore_app a b :
  ascii_ignore (a ++ b) = (ascii_ignore a ++ ascii_ignore b)%string.
Proof.
  induction a as [|c a IH]; simpl; [reflexivity|].
  destruct (nat_of_ascii c <? 128)%nat; simpl; now rewrite IH.
Qed.

Lemma ascii_ignore_fix s : is_ascii s = true -> ascii_ignore s = s.
Proof.
  induction s as [|c s IH]; simpl; [reflexivity|].
  intros H. apply andb_true_iff in H as [Hc Hs].
  rewrite Hc. now rewrite IH.
Qed.

Lemma ascii_ignore_range s : is_ascii (ascii_ignore s) = true.
Proof.
  induction s as [|c s IH]; simpl; [reflexivity|].
  destruct (nat_of_ascii c <? 128)%nat eqn:Hc; simpl; [|exact IH].
  now rewrite Hc.
Qed.

Lemma ascii_ignore_normaliser : text_normaliser ascii_ignore.
Proof.
  split; [apply ascii_ignore_app | apply ascii_ignore_fix | apply ascii_ignore_range].
Qed.

Lemma starts_with_app p s : starts_with p (p ++ s) = true.
Proof.
  induction p as [|c p IH]; simpl; [reflexivity|].
  now rewrite Ascii.eqb_refl.
Qed.

(** Joining what [split(" ")] cut gives the text back. *)
Lemma join_split s : join_space (split_space s) = s.
Proof.
  unfold join_space. induction s as [|c s IH]; [reflexivity|].
  cbn [split_space]. destruct (Ascii.eqb_spec c " ") as [->|Hc].
  - destruct (split_space s) as [|w ws] eqn:Hs.
    + now destruct s; cbn in Hs; [|destruct (Ascii.eqb a " "), (split_space s)].
    + cbn [String.concat] in *. now rewrite IH.
  - destruct (split_space s) as [|w ws] eqn:Hs.
    + now destruct s; cbn in Hs; [|destruct (Ascii.eqb a " "), (split_space s)].
    + cbn [String.concat] in *. destruct ws; cbn [append]; now rewrite <- IH.
Qed.

Lemma append_length a b :
  String.length (a ++ b) = (String.length a + String.length b)%nat.
Proof. induction a as [|c a IH]; simpl; congruence. Qed.

(** ** [Notification.summary] *)

Arguments Notification.summary : simpl never.
Arguments Notification.email : simpl never.
Arguments Notification.send : simpl never.

Ltac run :=
  cbv [bind gets ret modify raise lift_sum try_except on_self on_world
       method_call log_info log_error time_time time_sleep datetime_now uuid1
       subscript_username getattr_user store_guard db_session
       session_query_all session_add session_commit session_close
       delete_notification final raises];
  cbn [fst snd].

Section SummaryFacts.
Variable E : env.

Lemma summary_cached n :
  truthy (_summary n) = true ->
  Notification.summary E n = Ok (_summary n) n.
Proof.
  intros H. unfold Notification.summary. run. now rewrite H.
Qed.

Lemma summary_computed n :
  truthy (_summary n) = false ->
  Notification.summary E n =
    match ascii_encode E (summary_raw (message n)) with
    | inl e => Raise e (set_summary (summary_raw (message n)) n)
    | inr v => Ok v (set_summary v n)
    end.
Proof.
  intros H. unfold Notification.summary, summary_raw. run. rewrite H. cbn [negb].
  destruct (contains_space (message n));
    [destruct (5 <=? List.length (split_space (message n)))%nat|];
    cbn [_summary set_summary];
    match goal with
    | |- context [ascii_encode E ?r] => destruct (ascii_encode E r)
    end; reflexivity.
Qed.

(** A message of fewer than five pieces: the summary is the encoded
    message. *)
Lemma summary_short n :
  truthy (_summary n) = false ->
  (List.length (split_space (message n)) < 5)%nat ->
  Notification.summary E n =
    Ok (Str (ascii_text E (message n)))
       (set_summary (Str (ascii_text E (message n))) n).
Proof.
  intros H Hlen. rewrite (summary_computed n H). unfold summary_raw.
  apply Nat.leb_gt in Hlen. rewrite Hlen.
  destruct (contains_space (message n)); reflexivity.
Qed.

(** A message of five pieces or more: the encoder is handed the list of
    the first four, not a text. *)
Lemma summary_long n :
  truthy (_summary n) = false ->
  (5 <= List.length (split_space (message n)))%nat ->
  Notification.summary E n =
    match ascii_other E (StrList (firstn 4 (split_space (message n)))) with
    | inl e => Raise e (set_summary (StrList (firstn 4 (split_space (message n)))) n)
    | inr v => Ok v (set_summary v n)
    end.
Proof.
  intros H Hlen. rewrite (summary_computed n H). unfold summary_raw.
  apply Nat.leb_le in Hlen. rewrite Hlen.
  destruct (contains_space (message n)) eqn:Hsp; [reflexivity|].
  exfalso. clear H. apply Nat.leb_le in Hlen. revert Hlen Hsp.
  generalize (message n). intros m Hlen Hsp.
  assert (Hone : forall s, contains_space s = false -> exists w, split_space s = [w]).
  { induction s as [|c s IH]; simpl; [eauto|].
    intros Hc. apply orb_false_iff in Hc as [Hc Hs]. rewrite Hc.
    destruct (IH Hs) as [w ->]. eauto. }
  destruct (Hone m Hsp) as [w Hw]. rewrite Hw in Hlen. simpl in Hlen. lia.
Qed.

(** A read leaves the object in a state that every further read leaves
    alone, and that answers with the same value. *)
Lemma summary_stable n v n1 :
  Notification.summary E n = Ok v n1 ->
  Notification.summary E n1 = Ok v n1.
Proof.
  intros H. destruct (truthy (_summary n)) eqn:Ht.
  - rewrite (summary_cached n Ht) in H. inversion H; subst.
    now apply summary_cached.
  - rewrite (summary_computed n Ht) in H.
    destruct (ascii_encode E (summary_raw (message n))) as [e|v'] eqn:He;
      [discriminate|].
    inversion H; subst v' n1. clear H.
    destruct (truthy v) eqn:Hv.
    + now rewrite summary_cached.
    + rewrite summary_computed by exact Hv.
      cbn [message set_summary]. now rewrite He.
Qed.
End SummaryFacts.

(** ** [NotificationHandler.notify] *)

Section NotifyFacts.
Variable E : env.

(** Due within five minutes: the live set alone changes. *)
Lemma notify_soon n w :
  trigger_time n - clock w <= 300 ->
  NotificationHandler.notify E n w =
    Ok tt (set_notifications (dict_update (uid n) n) w).
Proof.
  intros H. unfold NotificationHandler.notify. run.
  cbn [clock trigger_time set_notifications].
  apply Z.ltb_ge in H. now rewrite H.
Qed.

(** Due later, with a store that works, a user record and a summary that
    can be read: one row joins the table, the session is closed, and the
    live set holds the object as the read of its summary left it. *)
Lemma notify_late n w u s n' :
  300 < trigger_time n - clock w ->
  (forall op, store_fault E op = None) ->
  user_data n = UserRec u ->
  Notification.summary E n = Ok s n' ->
  NotificationHandler.notify E n w =
    Ok tt (set_table (fun rows => rows ++ [stored_row n s u])
             (set_notifications (dict_update (uid n) n') w)).
Proof.
  intros Hlate Hstore Hu Hs. unfold NotificationHandler.notify. run.
  cbn [clock trigger_time set_notifications].
  apply Z.ltb_lt in Hlate. rewrite Hlate.
  rewrite !Hstore, Hs, Hu. cbn [fst snd].
  destruct w; unfold set_table, set_notifications, set_open_sessions, stored_row;
    simpl. now rewrite dict_store_update.
Qed.

(** Whatever happens after it, the first statement of [notify] has put
    the object into the live set under its uid; at most the summary it
    caches has been filled in since. *)
Lemma notify_always_registers n w :
  exists n',
    dict_get (uid n) (_notifications (final (NotificationHandler.notify E n w)))
      = Some n'
    /\ set_summary (_summary n) n' = n.
Proof.
  assert (Hn : set_summary (_summary n) n = n) by (destruct n; reflexivity).
  assert (Hsum : forall o : outcome notification pyval,
             o = Notification.summary E n ->
             set_summary (_summary n) (final o) = n).
  { intros o ->. destruct (truthy (_summary n)) eqn:Ht.
    - rewrite summary_cached by exact Ht. exact Hn.
    - rewrite summary_computed by exact Ht.
      destruct (ascii_encode E _); destruct n; reflexivity. }
  unfold NotificationHandler.notify. run.
  cbn [clock trigger_time set_notifications].
  destruct (300 <? trigger_time n - clock w).
  2:{ exists n. cbn. now rewrite dict_get_update. }
  destruct (store_fault E OpSession).
  { exists n. cbn. now rewrite dict_get_update. }
  cbn [_notifications set_open_sessions].
  specialize (Hsum _ eq_refl).
  destruct (Notification.summary E n) as [s n1|e n1]; cbn [final] in Hsum;
    cbn [fst snd].
  2:{ exists n1. cbn. now rewrite dict_store_update, dict_get_update. }
  exists n1. split; [|exact Hsum].
  destruct (user_data n); cbn;
    try (now rewrite dict_store_update, dict_get_update).
  destruct (store_fault E OpAdd); cbn;
    try (now rewrite dict_store_update, dict_get_update).
  destruct (store_fault E OpCommit); cbn;
    try (now rewrite dict_store_update, dict_get_update).
  destruct (store_fault E OpClose); cbn;
    now rewrite dict_store_update, dict_get_update.
Qed.
End NotifyFacts.

(** ** Sessions *)

Section SessionFacts.
Variable E : env.

Lemma notify_sessions n w :
  store_fault E OpSession = None ->
  open_sessions (final (NotificationHandler.notify E n w)) =
    (open_sessions w + leak (NotificationHandler.notify E n w))%nat.
Proof.
  intros Hopen. unfold leak, NotificationHandler.notify. run.
  cbn [clock trigger_time set_notifications].
  destruct (300 <? trigger_time n - clock w); [|cbn; lia].
  rewrite Hopen. cbn [_notifications set_open_sessions].
  destruct (Notification.summary E n) as [s n1|e n1]; cbn [fst snd];
    [|cbn; lia].
  destruct (user_data n); cbn; try lia.
  destruct (store_fault E OpAdd); cbn; try lia.
  destruct (store_fault E OpCommit); cbn; try lia.
  destruct (store_fault E OpClose); cbn; lia.
Qed.

(** Rebuilding a notification from a row never raises: it reads the
    clock, and draws a uid when the row offers none. *)
Lemma reload_run row w :
  NotificationHandler.reload E row w =
    let n :=
      mkNotification
        (ascii_text E ("W.I.L.L - " ++ NotificationStore.title row))
        (ascii_text E (NotificationStore.message row))
        (NotificationStore.scope row)
        (Scalar (NotificationStore.user_id row))
        (Scalar (NotificationStore.uid row))
        (SDate (clock w))
        (if truthy_scalar (NotificationStore.created row)
         then NotificationStore.created row else SUuid (next_uuid w))
        (NotificationStore.trigger_time row)
        (NotificationStore.summary row) in
    Ok n (if truthy_scalar (NotificationStore.created row)
          then w else set_next_uuid (N.succ (next_uuid w)) w).
Proof.
  unfold NotificationHandler.reload, Notification.__init__. run.
  cbn [truthy_scalar].
  destruct (truthy_scalar (NotificationStore.created row)); reflexivity.
Qed.

Lemma reload_all_frame rows : forall w,
  exists w',
    NotificationHandler.reload_all E rows w = Ok tt w'
    /\ open_sessions w' = open_sessions w
    /\ table w' = table w
    /\ log w' = log w.
Proof.
  induction rows as [|row rest IH]; intros w; simpl.
  - exists w. now run.
  - unfold bind at 1. rewrite reload_run. cbn zeta.
    unfold bind at 1. unfold modify at 1.
    match goal with
    | |- context [NotificationHandler.reload_all E rest ?w1] =>
        destruct (IH w1) as (w' & Hrun & Ho & Ht & Hl)
    end.
    exists w'. rewrite Hrun. split; [reflexivity|].
    rewrite Ho, Ht, Hl.
    destruct (truthy_scalar (NotificationStore.created row)); now destruct w.
Qed.

Lemma pull_sessions w :
  store_fault E OpSession = None ->
  open_sessions (final (NotificationHandler._pull_notificatons E w)) =
    (open_sessions w + leak (NotificationHandler._pull_notificatons E w))%nat.
Proof.
  intros Hopen. unfold leak, NotificationHandler._pull_notificatons. run.
  rewrite Hopen. cbn [table set_open_sessions].
  destruct (store_fault E OpQuery); [cbn; lia|].
  change (table (set_open_sessions S w)) with (table w).
  destruct (table w) as [|row rest] eqn:Hrows.
  - destruct (store_fault E OpClose); cbn; lia.
  - match goal with
    | |- context [NotificationHandler.reload_all E ?l ?w1] =>
        destruct (reload_all_frame l w1) as (w' & Hrun & Ho & _)
    end.
    rewrite Hrun. cbn in Ho.
    destruct (store_fault E OpClose); cbn; rewrite Ho; lia.
Qed.
End SessionFacts.

(** ** [Notification.send] *)

Lemma same_registry_refl w : same_registry w w.
Proof. repeat split. Qed.

Lemma same_registry_add_log l w w' :
  same_registry w w' -> same_registry w (add_log l w').
Proof. intros H. exact H. Qed.

Lemma same_registry_add_outbox m w w' :
  same_registry w w' -> same_registry w (add_outbox m w').
Proof. intros H. exact H. Qed.

Create HintDb registry.

#[local] Hint Resolve same_registry_refl same_registry_add_log
  same_registry_add_outbox : registry.

Section SendFacts.
Variable E : env.

Lemma settings_get_cases {S} k d (s : S) :
  (exists v, settings_get k d s = Ok v s) \/ settings_get k d s = Raise KeyError s.
Proof.
  induction d as [|[k' v] r IH]; simpl; [now right|].
  destruct (String.eqb k k'); [left; now exists v | exact IH].
Qed.

Lemma email_frame n w :
  same_registry w (snd (final (Notification.email E (n, w)))).
Proof.
  unfold Notification.email. run.
  destruct (load_key E (db n)) as [e|[key url]]; cbn; auto with registry.
  destruct (user_data n); cbn; auto with registry.
  destruct (settings_get_cases "email" (settings u) (n, w)) as [[v ->]| ->];
    cbn; auto with registry.
  destruct (Notification.summary E n) as [s n1|e n1]; cbn; auto with registry.
  match goal with
  | |- context [relay E ?m] => destruct (relay E m)
  end; cbn; auto with registry.
Qed.

Lemma send_frame n w :
  same_registry w (snd (final (Notification.send E (n, w)))).
Proof.
  unfold Notification.send. run.
  destruct (user_data n) eqn:Hu; cbn; auto with registry.
  destruct (scope n =? "email")%string; cbn; auto with registry.
  match goal with
  | |- context [Notification.email E (n, ?w1)] =>
      pose proof (email_frame n w1) as H
  end.
  destruct (Notification.email E _) as [a [n1 w1]|e [n1 w1]]; exact H.
Qed.

(** A scope other than ["email"], on an object whose user record gives
    its username: two lines are logged and the call returns. *)
Lemma send_no_channel n u w :
  user_data n = UserRec u ->
  scope n <> "email" ->
  Notification.send E (n, w) =
    Ok tt (n, add_log (ERROR, NoMethodForScope (scope n))
                (add_log (INFO, SendingTo (username u)) w)).
Proof.
  intros Hu Hs. unfold Notification.send. run. rewrite Hu.
  apply String.eqb_neq in Hs. now rewrite Hs.
Qed.

(** Without a user record the first statement of [send] raises, whatever
    the scope. *)
Lemma send_without_user n w :
  (forall u, user_data n <> UserRec u) ->
  Notification.send E (n, w) = Raise TypeError (n, w).
Proof.
  intros Hu. unfold Notification.send. run.
  destruct (user_data n); try reflexivity. now destruct (Hu u).
Qed.
End SendFacts.

(** ** [NotificationHandler._wait_notifications] *)

Section LoopFacts.
Variable E : env.

Lemma visit_not_due k n w :
  due w (k, n) = false -> NotificationHandler.visit E k n w = Ok tt w.
Proof.
  unfold due. cbn [snd]. intros H.
  unfold NotificationHandler.visit, Notification.time_reached. run.
  now rewrite H.
Qed.

(** The visit of a due entry never returns, and never writes to the
    store. *)
Lemma visit_due k n w :
  due w (k, n) = true ->
  raises (NotificationHandler.visit E k n w) = true
  /\ table (final (NotificationHandler.visit E k n w)) = table w.
Proof.
  unfold due. cbn [snd]. intros H.
  unfold NotificationHandler.visit, Notification.time_reached,
    NotificationHandler.delitem, NotificationHandler.graph. run.
  rewrite H.
  destruct (user_data n) eqn:Hu; cbn; auto.
  match goal with
  | |- context [Notification.send E (n, ?w1)] =>
      pose proof (send_frame E n w1) as (_ & Ht & _)
  end.
  destruct (Notification.send E _) as [a [n1 w1]|e [n1 w1]];
    cbn in Ht; cbn;
    match goal with
    | |- context [dict_get k ?d] => destruct (dict_get k d)
    end; cbn; auto.
Qed.

(** The same visit, spelled out for an entry of the live set that has a
    user record: the entry leaves the live set, then the handler looks
    for its attribute [graph]. *)
Lemma visit_due_user k n u w :
  due w (k, n) = true ->
  user_data n = UserRec u ->
  dict_get k (_notifications w) <> None ->
  exists w',
    NotificationHandler.visit E k n w = Raise AttributeError w'
    /\ _notifications w' = dict_del k (_notifications w)
    /\ table w' = table w.
Proof.
  unfold due. cbn [snd]. intros H Hu Hk.
  unfold NotificationHandler.visit, Notification.time_reached,
    NotificationHandler.delitem, NotificationHandler.graph. run.
  rewrite H, Hu.
  match goal with
  | |- context [Notification.send E (n, ?w1)] =>
      pose proof (send_frame E n w1) as (Hl & Ht & _)
  end.
  destruct (Notification.send E _) as [a [n1 w1]|e [n1 w1]];
    cbn in Hl, Ht; cbn; rewrite Hl, dict_get_store;
    destruct (dict_get k (_notifications w)); try congruence; cbn;
    eexists; (split; [reflexivity|]); cbn;
    rewrite Hl, dict_del_store; auto.
Qed.

Lemma scan_nil w used :
  List.length (_notifications w) = used ->
  NotificationHandler.scan E used [] w = Ok tt w.
Proof.
  intros H. cbn. run. now rewrite H, Nat.eqb_refl.
Qed.

Lemma scan_cons k n rest w used :
  List.length (_notifications w) = used ->
  NotificationHandler.scan E used ((k, n) :: rest) w =
    match NotificationHandler.visit E k n w with
    | Ok _ w' => NotificationHandler.scan E used rest w'
    | Raise e w' => Raise e w'
    end.
Proof.
  intros H. cbn [NotificationHandler.scan].
  unfold bind at 1. unfold gets at 1. rewrite H, Nat.eqb_refl. reflexivity.
Qed.

Lemma scan_spec items : forall w used,
  List.length (_notifications w) = used ->
  raises (NotificationHandler.scan E used items w) = existsb (due w) items
  /\ table (final (NotificationHandler.scan E used items w)) = table w.
Proof.
  induction items as [|[k n] rest IH]; intros w used Hused.
  - rewrite scan_nil by exact Hused. cbn. auto.
  - rewrite scan_cons by exact Hused. cbn [existsb].
    destruct (due w (k, n)) eqn:Hd.
    + destruct (visit_due k n w Hd) as [Hr Ht].
      destruct (NotificationHandler.visit E k n w); cbn in *;
        [discriminate | auto].
    + rewrite visit_not_due by exact Hd. cbn [orb]. now apply IH.
Qed.

(** One turn of the loop raises exactly when an entry of the live set
    is due, and leaves the store as it found it. *)
Lemma turn_run w :
  NotificationHandler.turn E w =
    match _notifications w with
    | [] => Ok tt w
    | _ :: _ =>
        match NotificationHandler.scan E (List.length (_notifications w))
                (_notifications w) w with
        | Ok _ w' => Ok tt w'
        | Raise e w' => Raise e w'
        end
    end.
Proof.
  unfold NotificationHandler.turn. run. now destruct (_notifications w).
Qed.

Lemma turn_spec w :
  raises (NotificationHandler.turn E w) = existsb (due w) (_notifications w)
  /\ table (final (NotificationHandler.turn E w)) = table w.
Proof.
  rewrite turn_run.
  destruct (scan_spec (_notifications w) w (List.length (_notifications w)) eq_refl)
    as [Hr Ht].
  destruct (_notifications w) as [|kv live]; [cbn; auto|].
  destruct (NotificationHandler.scan E _ _ w); cbn in *; auto.
Qed.

(** The thread: once a turn finds a due entry, the exception leaves
    [_wait_notifications]; the turns that would follow never happen. *)
Lemma thread_cons t later w :
  NotificationHandler._wait_notifications E (t :: later) w =
    if running w then
      match NotificationHandler.turn E (set_clock t w) with
      | Ok _ w' => NotificationHandler._wait_notifications E later w'
      | Raise e w' => Raise e w'
      end
    else Ok tt w.
Proof.
  cbn [NotificationHandler._wait_notifications]. run.
  now destruct (running w).
Qed.

Lemma thread_dies t later w :
  running w = true ->
  existsb (due (set_clock t w)) (_notifications w) = true ->
  raises (NotificationHandler._wait_notifications E (t :: later) w) = true.
Proof.
  intros Hrun Hdue. rewrite thread_cons, Hrun.
  destruct (turn_spec (set_clock t w)) as [Hr _].
  change (_notifications (set_clock t w)) with (_notifications w) in Hr.
  rewrite Hdue in Hr.
  destruct (NotificationHandler.turn E (set_clock t w)); cbn in *;
    [discriminate | reflexivity].
Qed.

Lemma thread_store readings : forall w,
  table (final (NotificationHandler._wait_notifications E readings w)) = table w.
Proof.
  induction readings as [|t later IH]; intros w; [reflexivity|].
  rewrite thread_cons.
  destruct (running w); [|reflexivity].
  destruct (turn_spec (set_clock t w)) as [_ Ht].
  destruct (NotificationHandler.turn E (set_clock t w)) as [a w1|e w1];
    cbn in Ht; [rewrite IH|cbn]; exact Ht.
Qed.
End LoopFacts.

(** ** [NotificationHandler._pull_notificatons] *)

Section PullFacts.
Variable E : env.

Lemma reload_all_cons row rest w :
  NotificationHandler.reload_all E (row :: rest) w =
    match NotificationHandler.reload E row w with
    | Ok n w1 =>
        NotificationHandler.reload_all E rest
          (set_notifications (dict_update (NotificationStore.uid row) n) w1)
    | Raise e w1 => Raise e w1
    end.
Proof.
  cbn [NotificationHandler.reload_all]. run.
  now destruct (NotificationHandler.reload E row w).
Qed.

Lemma reload_clock row w n w1 :
  NotificationHandler.reload E row w = Ok n w1 ->
  clock w1 = clock w /\ _notifications w1 = _notifications w.
Proof.
  rewrite reload_run. cbn zeta. intros H. inversion H; subst.
  now destruct (truthy_scalar (NotificationStore.created row)).
Qed.

(** No row is left out: every uid of the table keys the live set. *)
Lemma reload_all_keys rows : forall w w' k,
  NotificationHandler.reload_all E rows w = Ok tt w' ->
  In k (map NotificationStore.uid rows) \/ dict_get k (_notifications w) <> None ->
  dict_get k (_notifications w') <> None.
Proof.
  induction rows as [|row rest IH]; intros w w' k Hrun Hk.
  - cbn in Hrun. inversion Hrun; subst. destruct Hk as [[]|Hk]; exact Hk.
  - rewrite reload_all_cons in Hrun.
    destruct (NotificationHandler.reload E row w) as [n w1|e w1] eqn:Hr;
      [|discriminate].
    apply reload_clock in Hr as [_ Hlive].
    apply (IH _ _ k Hrun). cbn [_notifications set_notifications]. rewrite Hlive.
    destruct (scalar_eq_dec (NotificationStore.uid row) k) as [->|Hne].
    + right. rewrite dict_get_update. discriminate.
    + destruct Hk as [[Hk|Hk]|Hk]; [congruence | now left | right].
      now rewrite dict_get_update_other.
Qed.

Lemma reload_all_other rows : forall w w' k,
  NotificationHandler.reload_all E rows w = Ok tt w' ->
  ~ In k (map NotificationStore.uid rows) ->
  dict_get k (_notifications w') = dict_get k (_notifications w)
  /\ clock w' = clock w.
Proof.
  induction rows as [|row rest IH]; intros w w' k Hrun Hk.
  - cbn in Hrun. inversion Hrun; subst. auto.
  - rewrite reload_all_cons in Hrun.
    destruct (NotificationHandler.reload E row w) as [n w1|e w1] eqn:Hr;
      [|discriminate].
    apply reload_clock in Hr as [Hclock Hlive].
    simpl in Hk.
    destruct (IH _ _ k Hrun) as [Hget Hc]; [tauto|].
    rewrite Hget, Hc. cbn [_notifications set_notifications clock].
    rewrite Hlive. split; [|exact Hclock].
    apply dict_get_update_other. tauto.
Qed.

(** What the live set holds for a row, when no two rows share a uid: the
    row's uid sits in the summary slot, its summary in the user slot, its
    user in the db slot, its creation time in the uid slot, and the time
    of the reload in the creation slot. *)
Lemma reload_all_entry rows : forall w w' row,
  NoDup (map NotificationStore.uid rows) ->
  In row rows ->
  NotificationHandler.reload_all E rows w = Ok tt w' ->
  exists n,
    dict_get (NotificationStore.uid row) (_notifications w') = Some n
    /\ _summary n = Scalar (NotificationStore.uid row)
    /\ user_data n = NotificationStore.summary row
    /\ db n = Scalar (NotificationStore.user_id row)
    /\ created n = SDate (clock w)
    /\ (truthy_scalar (NotificationStore.created row) = true ->
        uid n = NotificationStore.created row)
    /\ title n = ascii_text E ("W.I.L.L - " ++ NotificationStore.title row).
Proof.
  induction rows as [|r rest IH]; intros w w' row Hnd Hin Hrun; [destruct Hin|].
  rewrite reload_all_cons in Hrun.
  destruct (NotificationHandler.reload E r w) as [n w1|e w1] eqn:Hr;
    [|discriminate].
  pose proof (reload_clock _ _ _ _ Hr) as [Hclock Hlive].
  cbn [map] in Hnd. inversion Hnd as [|x l Hnotin Hnd']; subst.
  destruct Hin as [->|Hin].
  - destruct (reload_all_other _ _ _ _ Hrun Hnotin) as [Hget _].
    exists n. rewrite Hget. cbn [_notifications set_notifications].
    rewrite dict_get_update. split; [reflexivity|].
    rewrite reload_run in Hr. cbn zeta in Hr. inversion Hr; subst n. cbn.
    repeat split. intros ->. reflexivity.
  - destruct (IH _ _ row Hnd' Hin Hrun) as (n' & Hn').
    exists n'. cbn [clock set_notifications] in Hn'. now rewrite Hclock in Hn'.
Qed.

(** With a store that works, the startup load returns, closes its
    session and leaves the table alone. *)
Lemma pull_run w :
  (forall op, store_fault E op = None) ->
  exists w',
    NotificationHandler._pull_notificatons E w = Ok tt w'
    /\ table w' = table w
    /\ open_sessions w' = open_sessions w
    /\ (forall row, In row (table w) ->
          dict_get (NotificationStore.uid row) (_notifications w') <> None).
Proof.
  intros Hstore. unfold NotificationHandler._pull_notificatons. run.
  rewrite !Hstore. change (table (set_open_sessions S w)) with (table w).
  destruct (table w) as [|row rest] eqn:Hrows.
  - eexists. split; [reflexivity|]. cbn. repeat split; auto.
  - destruct (reload_all_frame E (row :: rest) (set_open_sessions S w))
      as (w' & Hrun & Ho & Ht & _).
    rewrite Hrun. eexists. split; [reflexivity|]. cbn.
    rewrite Ht, Ho. cbn. repeat split; auto.
    intros r Hr. apply (reload_all_keys _ _ _ _ Hrun). left.
    now apply in_map.
Qed.
End PullFacts.

(** ** [Notification.__init__] *)

Lemma init_run E m t trig sc d ud sm u c w :
  Notification.__init__ E m t trig sc d ud sm u c w =
    Ok (mkNotification (ascii_text E ("W.I.L.L - " ++ t)) (ascii_text E m) sc d sm
          (if truthy_scalar c then c else SDate (clock w))
          (if truthy_scalar u then u else SUuid (next_uuid w))
          trig ud)
       (if truthy_scalar u then w else set_next_uuid (N.succ (next_uuid w)) w).
Proof.
  unfold Notification.__init__. run.
  destruct (truthy_scalar c), (truthy_scalar u); reflexivity.
Qed.

Lemma reads_stable E n v n1 :
  Notification.summary E n = Ok v n1 ->
  forall k, reads E k n1 = Ok (repeat v k) n1.
Proof.
  intros H k. apply summary_stable in H.
  induction k as [|k IH]; [reflexivity|].
  cbn [reads repeat]. run. now rewrite H, IH.
Qed.

Lemma summary_fills_slot E n v n1 :
  Notification.summary E n = Ok v n1 -> _summary n1 = v.
Proof.
  intros H. destruct (truthy (_summary n)) eqn:Ht.
  - rewrite summary_cached in H by exact Ht. now inversion H; subst.
  - rewrite summary_computed in H by exact Ht.
    destruct (ascii_encode E _); [discriminate|]. now inversion H; subst.
Qed.

(** A summary that is not empty is read back from the slot: the encoder
    has no part in the answer. *)
Lemma reads_cached E n v k :
  _summary n = v -> truthy v = true -> reads E k n = Ok (repeat v k) n.
Proof.
  intros Hv Ht. subst v.
  induction k as [|k IH]; [reflexivity|].
  cbn [reads repeat]. run. now rewrite summary_cached, IH.
Qed.

(** After a read that raised in the encoder, the list is what the slot
    holds, and the next read returns it as it is. *)
Example summary_after_failed_read :
  Notification.summary env_up hello =
    Raise AttributeError (set_summary (StrList ["Hello"; "world,"; "this"; "is"]) hello)
  /\ Notification.summary env_up
       (set_summary (StrList ["Hello"; "world,"; "this"; "is"]) hello) =
     Ok (StrList ["Hello"; "world,"; "this"; "is"])
        (set_summary (StrList ["Hello"; "world,"; "this"; "is"]) hello).
Proof. split; reflexivity. Qed.

(** [hello] and [milk] are what [__init__] builds. *)
Example hello_constructed :
  Notification.__init__ env_up "Hello world, this is a test message" "Reminder"
    1400 "email" DbHandle (UserRec alice) None_ (SUuid 7) SNone (boot 1000 []) =
    Ok hello (boot 1000 []).
Proof. reflexivity. Qed.

Example milk_constructed :
  Notification.__init__ env_up "Buy milk" "Reminder" 1400 "sms" DbHandle
    (UserRec alice) None_ (SUuid 8) SNone (boot 1000 []) =
    Ok milk (boot 1000 []).
Proof. reflexivity. Qed.

(** The thread watched at times 1100, 1500 and 1600 with [dentist] live:
    the first turn finds nothing due, the second ends the thread, the third
    never takes place, and the row outlives the thread. *)
Example thread_stops_at_first_due :
  NotificationHandler._wait_notifications env_up [1100; 1500; 1600]
    (set_clock 1000 dentist_due) =
  NotificationHandler.turn env_up dentist_due.
Proof. reflexivity. Qed.

(** The object the startup load makes of [milk_row] has a text in its
    user slot: [send] raises on its first statement, before it looks at the
    scope, and so does the loop when it announces the delivery. *)
Example send_on_reloaded_raises :
  Notification.send env_up (milk_reloaded, boot 2000 [milk_row]) =
    Raise TypeError (milk_reloaded, boot 2000 [milk_row])
  /\ NotificationHandler.visit env_up (SUuid 8) milk_reloaded
       (mkWorld [(SUuid 8, milk_reloaded)] true [milk_row] 0 2000 1%N [] []) =
     Raise TypeError
       (mkWorld [(SUuid 8, milk_reloaded)] true [milk_row] 0 2000 1%N [] []).
Proof. split; reflexivity. Qed.

(** * The claims *)

(** C1.  The startup load hands [Notification] eight positional arguments
    for nine parameters, the [db] argument being the one left out.  So for
    every row the rebuilt notification has the row's user in its db slot,
    the row's summary in its user slot, the row's uid in its summary slot,
    the row's creation time in its uid slot, and the time of the load as its
    creation time.  Loading the single row [milk_row] at time 2000 puts
    exactly that object into the live set, under the row's uid. *)
Theorem pull_shifts_the_slots :
  (forall E row w,
      exists n w',
        NotificationHandler.reload E row w = Ok n w'
        /\ db n = Scalar (NotificationStore.user_id row)
        /\ user_data n = NotificationStore.summary row
        /\ _summary n = Scalar (NotificationStore.uid row)
        /\ uid n = (if truthy_scalar (NotificationStore.created row)
                    then NotificationStore.created row
                    else SUuid (next_uuid w))
        /\ created n = SDate (clock w))
  /\ NotificationHandler._pull_notificatons env_up (boot 2000 [milk_row]) =
       Ok tt (mkWorld [(SUuid 8, milk_reloaded)] true [milk_row] 0 2000 1%N [] []).
Proof.
  split; [|reflexivity].
  intros E row w. rewrite reload_run. cbn zeta.
  eexists. eexists. split; [reflexivity|]. cbn. auto.
Qed.

(** C2.  No turn of the background loop writes to the durable store.  With
    [dentist] live, stored and due, the turn attempts the delivery, logs a
    refusal of the relay without propagating it, takes the entry out of the
    live set and then raises [AttributeError] on [self.graph]: the row is
    still in the table, whether the mail went out or not. *)
Theorem due_entry_stays_in_store :
  (forall E w, table (final (NotificationHandler.turn E w)) = table w)
  /\ NotificationHandler.turn env_up dentist_due =
       Raise AttributeError
         (mkWorld [] true [dentist_row] 0 1500 1%N
            [(INFO, SendingFor "alice"); (INFO, SendingTo "alice")]
            [mkMail "https://relay.example/messages" ("api", "key-0")
                    "will <postmaster@willbeddow.com>"
                    "Alice Liddell <alice@example.org>"
                    (Str "Dentist at nine") "Dentist at nine"])
  /\ NotificationHandler.turn env_relay_down dentist_due =
       Raise AttributeError
         (mkWorld [] true [dentist_row] 0 1500 1%N
            [(INFO, SendingFor "alice"); (INFO, SendingTo "alice");
             (ERROR, CouldntSend "alice" (External "ConnectionError"))]
            []).
Proof.
  split; [|split; reflexivity].
  intros E w. apply turn_spec.
Qed.

(** C3.  For the message of the specification's scenario, seven pieces
    long, [summary] stores the list of the first four pieces and hands that
    list to the encoder; what the read yields is what the encoder makes of
    a list, and the list stays in the slot when the encoder raises.  The
    four pieces are never joined into one text by [summary]. *)
Theorem summary_of_long_message_is_a_list E :
  Notification.summary E hello =
    match ascii_other E (StrList ["Hello"; "world,"; "this"; "is"]) with
    | inl e => Raise e (set_summary (StrList ["Hello"; "world,"; "this"; "is"]) hello)
    | inr v => Ok v (set_summary v hello)
    end
  /\ summary_by_spec (message hello) = Str "Hello world, this is".
Proof.
  split; [|reflexivity].
  rewrite summary_long; [reflexivity | reflexivity | cbn; lia].
Qed.

(** C4.  [notify] puts the notification into the live set under its uid.
    When it is due in more than 300 seconds, and the store works, the user
    slot holds a user record and the summary can be read, exactly one row
    is appended to the table and the session is closed.  When it is due
    within 300 seconds the table is left as it was and the live entry is
    there. *)
Theorem notify_registers_and_persists E n w u s n' :
  (300 < trigger_time n - clock w ->
   (forall op, store_fault E op = None)
   /\ user_data n = UserRec u
   /\ Notification.summary E n = Ok s n') ->
  exists w',
    NotificationHandler.notify E n w = Ok tt w'
    /\ open_sessions w' = open_sessions w
    /\ if 300 <? trigger_time n - clock w
       then dict_get (uid n) (_notifications w') = Some n'
            /\ table w' = table w ++ [stored_row n s u]
       else dict_get (uid n) (_notifications w') = Some n
            /\ table w' = table w.
Proof.
  intros H. destruct (300 <? trigger_time n - clock w) eqn:Hlate.
  - apply Z.ltb_lt in Hlate. destruct (H Hlate) as (Hstore & Hu & Hs).
    rewrite (notify_late E n w u s n' Hlate Hstore Hu Hs).
    eexists. split; [reflexivity|]. cbn. rewrite dict_get_update. auto.
  - apply Z.ltb_ge in Hlate. rewrite (notify_soon E n w Hlate).
    eexists. split; [reflexivity|]. cbn. rewrite dict_get_update. auto.
Qed.

Lemma notify_registers_and_persists_witness :
  (300 < trigger_time milk - clock (boot 1000 []) ->
   (forall op, store_fault env_up op = None)
   /\ user_data milk = UserRec alice
   /\ Notification.summary env_up milk = Ok (Str "Buy milk") milk_read)
  /\ exists w',
       NotificationHandler.notify env_up milk (boot 1000 []) = Ok tt w'
       /\ open_sessions w' = open_sessions (boot 1000 [])
       /\ if 300 <? trigger_time milk - clock (boot 1000 [])
          then dict_get (uid milk) (_notifications w') = Some milk_read
               /\ table w' = table (boot 1000 []) ++ [stored_row milk (Str "Buy milk") alice]
          else dict_get (uid milk) (_notifications w') = Some milk
               /\ table w' = table (boot 1000 []).
Proof.
  assert (H : 300 < trigger_time milk - clock (boot 1000 []) ->
              (forall op, store_fault env_up op = None)
              /\ user_data milk = UserRec alice
              /\ Notification.summary env_up milk = Ok (Str "Buy milk") milk_read).
  { intros _. repeat split. }
  split; [exact H|].
  exact (notify_registers_and_persists env_up milk (boot 1000 []) alice
           (Str "Buy milk") milk_read H).
Defined.

(** C5.  For every notification built for a user with a scope other than
    ["email"], [send] logs the line that announces the delivery, logs an
    error naming the scope and returns normally; the object, the live set,
    the store and the outbox are left as they were. *)
Theorem send_unknown_scope_logs_error E m t trig sc d u sm i c w :
  sc <> "email" ->
  exists n w1,
    Notification.__init__ E m t trig sc d (UserRec u) sm i c w = Ok n w1
    /\ scope n = sc
    /\ Notification.send E (n, w1) =
         Ok tt (n, add_log (ERROR, NoMethodForScope sc)
                     (add_log (INFO, SendingTo (username u)) w1)).
Proof.
  intros Hsc. rewrite init_run. eexists. eexists.
  split; [reflexivity|]. split; [reflexivity|].
  now rewrite (send_no_channel E _ u).
Qed.

Lemma send_unknown_scope_logs_error_witness :
  "sms" <> "email"
  /\ exists n w1,
       Notification.__init__ env_up "Buy milk" "Reminder" 1400 "sms" DbHandle
         (UserRec alice) None_ (SUuid 8) SNone (boot 1000 []) = Ok n w1
       /\ scope n = "sms"
       /\ Notification.send env_up (n, w1) =
            Ok tt (n, add_log (ERROR, NoMethodForScope "sms")
                        (add_log (INFO, SendingTo (username alice)) w1)).
Proof.
  assert (Hs : "sms" <> "email") by discriminate.
  split; [exact Hs|].
  exact (send_unknown_scope_logs_error env_up "Buy milk" "Reminder" 1400 "sms"
           DbHandle alice None_ (SUuid 8) SNone (boot 1000 []) Hs).
Defined.

(** C6.  A turn of the loop raises an exception that nothing handles
    exactly when some entry of the live set is due: the visit of a due
    entry always ends in an exception, at the latest on [self.graph]. *)
Theorem turn_raises_iff_due E w :
  raises (NotificationHandler.turn E w) = existsb (due w) (_notifications w).
Proof. apply turn_spec. Qed.

(** C7, as the claim states it, fails: no path closes a session after an
    exception.  A commit that fails leaves the session of [notify] open,
    and a query that fails leaves the session of the startup load open. *)
Lemma failed_operation_leaves_session_open :
  (raises (NotificationHandler.notify env_commit_down milk (boot 1000 [])) = true
   /\ open_sessions (boot 1000 []) = 0%nat
   /\ open_sessions
        (final (NotificationHandler.notify env_commit_down milk (boot 1000 []))) = 1%nat)
  /\ (raises (NotificationHandler._pull_notificatons env_query_down
                (boot 2000 [milk_row])) = true
      /\ open_sessions (boot 2000 [milk_row]) = 0%nat
      /\ open_sessions
           (final (NotificationHandler._pull_notificatons env_query_down
                     (boot 2000 [milk_row]))) = 1%nat).
Proof. repeat split. Qed.

(** C7, amended.  A session that [notify] or the startup load opened is
    closed when the call returns normally, and is left open when the call
    raises: after either call the number of open sessions is the number
    before it, plus one exactly when the call raised. *)
Theorem session_closed_unless_raised E n w :
  store_fault E OpSession = None ->
  open_sessions (final (NotificationHandler.notify E n w)) =
    (if raises (NotificationHandler.notify E n w)
     then S (open_sessions w) else open_sessions w)
  /\ open_sessions (final (NotificationHandler._pull_notificatons E w)) =
       (if raises (NotificationHandler._pull_notificatons E w)
        then S (open_sessions w) else open_sessions w).
Proof.
  intros Hopen. split.
  - rewrite notify_sessions by exact Hopen. unfold leak.
    destruct (raises _); lia.
  - rewrite pull_sessions by exact Hopen. unfold leak.
    destruct (raises _); lia.
Qed.

Lemma session_closed_unless_raised_witness :
  store_fault env_commit_down OpSession = None
  /\ open_sessions
       (final (NotificationHandler.notify env_commit_down milk (boot 1000 [milk_row]))) =
       (if raises (NotificationHandler.notify env_commit_down milk (boot 1000 [milk_row]))
        then S (open_sessions (boot 1000 [milk_row]))
        else open_sessions (boot 1000 [milk_row]))
  /\ open_sessions
       (final (NotificationHandler._pull_notificatons env_commit_down
                 (boot 1000 [milk_row]))) =
       (if raises (NotificationHandler._pull_notificatons env_commit_down
                     (boot 1000 [milk_row]))
        then S (open_sessions (boot 1000 [milk_row]))
        else open_sessions (boot 1000 [milk_row])).
Proof.
  split; [reflexivity|].
  exact (session_closed_unless_raised env_commit_down milk (boot 1000 [milk_row])
           eq_refl).
Defined.

(** C8.  Once a read of [summary] has returned a value, every further
    read returns that value and leaves the object as the first read left
    it, however many reads follow; and when that value is not empty the
    further reads take it from the slot, whatever the encoder would say. *)
Theorem summary_reads_stable E n v n1 :
  Notification.summary E n = Ok v n1 ->
  forall k,
    reads E k n1 = Ok (repeat v k) n1
    /\ reads E (S k) n = Ok (repeat v (S k)) n1
    /\ (truthy v = true -> forall E', reads E' k n1 = Ok (repeat v k) n1).
Proof.
  intros H k. pose proof (reads_stable E n v n1 H k) as Hk.
  split; [exact Hk|]. split.
  - cbn [reads repeat]. run. now rewrite H, Hk.
  - intros Ht E'. apply reads_cached; [|exact Ht].
    now apply summary_fills_slot with (E := E) (n := n).
Qed.

Lemma summary_reads_stable_witness :
  Notification.summary env_up milk = Ok (Str "Buy milk") milk_read
  /\ reads env_up 3 milk_read = Ok (repeat (Str "Buy milk") 3) milk_read
  /\ reads env_up 4 milk = Ok (repeat (Str "Buy milk") 4) milk_read
  /\ (truthy (Str "Buy milk") = true ->
      forall E', reads E' 3 milk_read = Ok (repeat (Str "Buy milk") 3) milk_read).
Proof.
  split; [reflexivity|].
  exact (summary_reads_stable env_up milk (Str "Buy milk") milk_read eq_refl 3%nat).
Defined.

(** C9.  When the uid of the notification already keys the live set,
    [notify] replaces the value under that key where it stands, adds no
    key and returns normally.  When the notification is moreover due in
    more than 300 seconds (and the store works, the user slot holds a user
    record and the summary can be read), one more row carrying that uid is
    appended to the table, whatever rows it held. *)
Theorem notify_overwrites_same_uid E n old w u s n' :
  dict_get (uid n) (_notifications w) = Some old ->
  (300 < trigger_time n - clock w ->
   (forall op, store_fault E op = None)
   /\ user_data n = UserRec u
   /\ Notification.summary E n = Ok s n') ->
  exists w',
    NotificationHandler.notify E n w = Ok tt w'
    /\ dict_keys (_notifications w') = dict_keys (_notifications w)
    /\ if 300 <? trigger_time n - clock w
       then dict_get (uid n) (_notifications w') = Some n'
            /\ table w' = table w ++ [stored_row n s u]
            /\ NotificationStore.uid (stored_row n s u) = uid n
       else dict_get (uid n) (_notifications w') = Some n
            /\ table w' = table w.
Proof.
  intros Hold H.
  assert (Hin : dict_get (uid n) (_notifications w) <> None) by congruence.
  destruct (300 <? trigger_time n - clock w) eqn:Hlate.
  - apply Z.ltb_lt in Hlate. destruct (H Hlate) as (Hstore & Hu & Hs).
    rewrite (notify_late E n w u s n' Hlate Hstore Hu Hs).
    eexists. split; [reflexivity|].
    cbn [_notifications set_notifications set_table table].
    rewrite dict_get_update, dict_keys_update_present by exact Hin. auto.
  - apply Z.ltb_ge in Hlate. rewrite (notify_soon E n w Hlate).
    eexists. split; [reflexivity|].
    cbn [_notifications set_notifications set_table table].
    rewrite dict_get_update, dict_keys_update_present by exact Hin. auto.
Qed.

Lemma notify_overwrites_same_uid_witness :
  dict_get (uid milk) (_notifications
     (mkWorld [(SUuid 8, dentist)] true [milk_row] 0 1000 1%N [] [])) = Some dentist
  /\ exists w',
       NotificationHandler.notify env_up milk
         (mkWorld [(SUuid 8, dentist)] true [milk_row] 0 1000 1%N [] []) = Ok tt w'
       /\ dict_keys (_notifications w') = [SUuid 8]
       /\ dict_get (uid milk) (_notifications w') = Some milk_read
       /\ table w' = [milk_row; milk_row].
Proof.
  split; [reflexivity|].
  destruct (notify_overwrites_same_uid env_up milk dentist
              (mkWorld [(SUuid 8, dentist)] true [milk_row] 0 1000 1%N [] [])
              alice (Str "Buy milk") milk_read eq_refl)
    as (w' & Hrun & Hkeys & Hget & Htable & _).
  - intros _. repeat split.
  - exists w'. repeat split; assumption.
Defined.

(** C10.  Provided the text encoder works character by character, leaves
    ASCII text alone and yields ASCII text: every notification [__init__]
    builds has as its title the encoding of ["W.I.L.L - "] followed by the
    title it was given, so the title begins with ["W.I.L.L - "]; and a
    notification the startup load rebuilds from a row that stores such a
    title gets the prefix once more, so its title is not the stored one. *)
Theorem title_prefixed_at_every_construction E m t trig sc d ud sm u c w :
  text_normaliser (ascii_text E) ->
  exists n w1,
    Notification.__init__ E m t trig sc d ud sm u c w = Ok n w1
    /\ title n = ascii_text E ("W.I.L.L - " ++ t)
    /\ starts_with "W.I.L.L - " (title n) = true
    /\ forall row w2,
         NotificationStore.title row = title n ->
         exists n' w3,
           NotificationHandler.reload E row w2 = Ok n' w3
           /\ title n' = ("W.I.L.L - " ++ title n)%string
           /\ starts_with "W.I.L.L - W.I.L.L - " (title n') = true
           /\ title n' <> title n.
Proof.
  intros Hnorm. rewrite init_run. eexists. eexists.
  split; [reflexivity|]. cbn [title].
  pose proof (norm_prefix _ Hnorm) as Hpre.
  pose proof (norm_idem _ Hnorm) as Hidem.
  split; [reflexivity|]. split.
  { rewrite Hpre. apply starts_with_app. }
  intros row w2 Hrow. rewrite reload_run. cbn zeta.
  eexists. eexists. split; [reflexivity|]. cbn [title].
  rewrite Hrow, !Hpre, Hidem.
  split; [reflexivity|]. split.
  { apply (starts_with_app "W.I.L.L - W.I.L.L - "). }
  intros Heq. apply (f_equal String.length) in Heq.
  rewrite !append_length in Heq. cbn in Heq. lia.
Qed.

Lemma title_prefixed_at_every_construction_witness :
  text_normaliser (ascii_text env_up)
  /\ exists n w1,
       Notification.__init__ env_up "Buy milk" "Reminder" 1400 "sms" DbHandle
         (UserRec alice) None_ (SUuid 8) SNone (boot 1000 []) = Ok n w1
       /\ title n = ascii_text env_up ("W.I.L.L - " ++ "Reminder")
       /\ starts_with "W.I.L.L - " (title n) = true
       /\ forall row w2,
            NotificationStore.title row = title n ->
            exists n' w3,
              NotificationHandler.reload env_up row w2 = Ok n' w3
              /\ title n' = ("W.I.L.L - " ++ title n)%string
              /\ starts_with "W.I.L.L - W.I.L.L - " (title n') = true
              /\ title n' <> title n.
Proof.
  split; [exact ascii_ignore_normaliser|].
  exact (title_prefixed_at_every_construction env_up "Buy milk" "Reminder" 1400
           "sms" DbHandle (UserRec alice) None_ (SUuid 8) SNone (boot 1000 [])
           ascii_ignore_normaliser).
Defined.

(** * Further properties *)

(** ** Helpers *)

Lemma settings_get_assoc {S} k d (s : S) :
  settings_get k d s =
    match assoc k d with
    | Some v => Ok v s
    | None => Raise KeyError s
    end.
Proof.
  induction d as [|[k' v] r IH]; cbn; [reflexivity|].
  destruct (String.eqb k k'); [reflexivity | exact IH].
Qed.

(** A read of the summary changes nothing of the object but its summary
    slot, and a read that returns leaves its answer in that slot. *)
Lemma summary_frame E n :
  set_summary (_summary n) (final (Notification.summary E n)) = n.
Proof.
  assert (Hn : set_summary (_summary n) n = n) by (destruct n; reflexivity).
  destruct (truthy (_summary n)) eqn:Ht.
  - rewrite summary_cached by exact Ht. exact Hn.
  - rewrite summary_computed by exact Ht.
    destruct (ascii_encode E _); destruct n; reflexivity.
Qed.

Lemma set_summary_message v n n1 : set_summary v n1 = n -> message n1 = message n.
Proof. intros <-. reflexivity. Qed.

Lemma set_summary_trans a b n n1 n2 :
  set_summary a n1 = n -> set_summary b n2 = n1 -> set_summary a n2 = n.
Proof. intros <- <-. reflexivity. Qed.

Lemma email_outcome E n w :
  log (snd (final (Notification.email E (n, w)))) = log w
  /\ same_registry w (snd (final (Notification.email E (n, w))))
  /\ set_summary (_summary n) (fst (final (Notification.email E (n, w)))) = n
  /\ (raises (Notification.email E (n, w)) = true ->
      outbox (snd (final (Notification.email E (n, w)))) = outbox w)
  /\ (raises (Notification.email E (n, w)) = false ->
      exists m,
        outbox (snd (final (Notification.email E (n, w)))) = outbox w ++ [m]
        /\ relay E m = None
        /\ mail_text m = message n
        /\ mail_subject m = _summary (fst (final (Notification.email E (n, w))))
        /\ mail_from m = "will <postmaster@willbeddow.com>"
        /\ fst (mail_auth m) = "api").
Proof.
  assert (Hn : set_summary (_summary n) n = n) by (destruct n; reflexivity).
  pose proof (email_frame E n w) as Hreg. revert Hreg.
  unfold Notification.email. run.
  destruct (load_key E (db n)) as [e|[key url]]; cbn;
    [intros Hreg; repeat split; auto; discriminate|].
  destruct (user_data n); cbn;
    try (intros Hreg; repeat split; auto; discriminate).
  rewrite settings_get_assoc.
  destruct (assoc "email" (settings u)) as [address|]; cbn;
    [|intros Hreg; repeat split; auto; discriminate].
  pose proof (summary_frame E n) as Hfr.
  pose proof (summary_fills_slot E n) as Hslot.
  destruct (Notification.summary E n) as [s n1|e n1]; cbn in Hfr |- *;
    [|intros Hreg; repeat split; auto; discriminate].
  specialize (Hslot s n1 eq_refl).
  match goal with
  | |- context [relay E ?m] => destruct (relay E m) eqn:Hrelay
  end; cbn; intros Hreg; repeat split; auto; try discriminate.
  intros _. eexists. split; [reflexivity|]. cbn.
  rewrite Hslot. repeat split; auto.
  now apply set_summary_message with (v := _summary n).
Qed.

Lemma send_outcome E n w :
  same_registry w (snd (final (Notification.send E (n, w))))
  /\ set_summary (_summary n) (fst (final (Notification.send E (n, w)))) = n
  /\ (List.length (outbox (snd (final (Notification.send E (n, w)))))
      <= S (List.length (outbox w)))%nat.
Proof.
  assert (Hn : set_summary (_summary n) n = n) by (destruct n; reflexivity).
  split; [apply send_frame|].
  unfold Notification.send. run.
  destruct (user_data n); cbn; auto.
  destruct (scope n =? "email")%string; cbn; auto.
  match goal with
  | |- context [Notification.email E (n, ?w1)] =>
      destruct (email_outcome E n w1) as (_ & _ & Hfr & Hr & Hs)
  end.
  destruct (Notification.email E _) as [a [n1 w1]|e [n1 w1]]; cbn in *.
  - destruct (Hs eq_refl) as (m & -> & _). rewrite length_app. cbn. split; [auto|lia].
  - rewrite (Hr eq_refl). auto.
Qed.

Lemma dict_get_app_here {V} k (v : V) pre post :
  dict_get k (pre ++ (k, v) :: post) <> None.
Proof.
  induction pre as [|[k' v'] pre IH]; cbn.
  - rewrite scalar_eqb_refl. discriminate.
  - destruct (scalar_eqb k k'); [discriminate | exact IH].
Qed.

Lemma dict_del_app_here {V} k (v : V) pre post :
  ~ In k (dict_keys pre) -> dict_del k (pre ++ (k, v) :: post) = pre ++ post.
Proof.
  unfold dict_keys. induction pre as [|[k' v'] pre IH]; cbn; intros Hk.
  - now rewrite scalar_eqb_refl.
  - destruct (scalar_eqb k k') eqn:Heq.
    + apply scalar_eqb_eq in Heq. subst. tauto.
    + rewrite IH; tauto.
Qed.

Lemma dict_update_absent {V} k (v : V) d :
  dict_get k d = None -> dict_update k v d = d ++ [(k, v)].
Proof.
  induction d as [|[k' v'] r IH]; cbn; [reflexivity|].
  destruct (scalar_eqb k k'); [discriminate|]. intros H. now rewrite IH.
Qed.

Lemma dict_keys_app {V} (a b : dict V) :
  dict_keys (a ++ b) = dict_keys a ++ dict_keys b.
Proof. apply map_app. Qed.

Section LoopMore.
Variable E : env.

Lemma scan_skip pre : forall rest w used,
  List.length (_notifications w) = used ->
  (forall kv, In kv pre -> due w kv = false) ->
  NotificationHandler.scan E used (pre ++ rest) w =
    NotificationHandler.scan E used rest w.
Proof.
  induction pre as [|[k n] pre IH]; intros rest w used Hused Hpre; [reflexivity|].
  cbn [app]. rewrite scan_cons by exact Hused.
  rewrite visit_not_due by (apply Hpre; now left).
  apply IH; [exact Hused|]. intros kv Hkv. apply Hpre. now right.
Qed.

Lemma existsb_false_all {A} (f : A -> bool) l :
  existsb f l = false -> forall x, In x l -> f x = false.
Proof.
  induction l as [|a l IH]; cbn; [tauto|].
  intros H x [->|Hx]; apply orb_false_iff in H as [Ha Hl]; auto.
Qed.

(** A turn that finds nothing due changes nothing. *)
Lemma turn_idle_run w :
  existsb (due w) (_notifications w) = false ->
  NotificationHandler.turn E w = Ok tt w.
Proof.
  intros H. rewrite turn_run.
  destruct (_notifications w) as [|kv live] eqn:Hlive; [reflexivity|].
  rewrite <- Hlive in *.
  rewrite <- (app_nil_r (_notifications w)) at 2.
  rewrite scan_skip; [|reflexivity | now apply existsb_false_all].
  now rewrite scan_nil.
Qed.

(** The visit of a due entry that has a user record, field by field. *)
Lemma visit_report k n u w :
  due w (k, n) = true ->
  user_data n = UserRec u ->
  dict_get k (_notifications w) <> None ->
  exists w',
    NotificationHandler.visit E k n w = Raise AttributeError w'
    /\ _notifications w' = dict_del k (_notifications w)
    /\ table w' = table w
    /\ open_sessions w' = open_sessions w
    /\ outbox w' =
         outbox (snd (final (Notification.send E
                               (n, add_log (INFO, SendingFor (username u)) w))))
    /\ log w' =
         log (snd (final (Notification.send E
                            (n, add_log (INFO, SendingFor (username u)) w))))
         ++ delivery_report (username u)
              (Notification.send E (n, add_log (INFO, SendingFor (username u)) w)).
Proof.
  unfold due. cbn [snd]. intros H Hu Hk.
  unfold NotificationHandler.visit, Notification.time_reached,
    NotificationHandler.delitem, NotificationHandler.graph. run.
  rewrite H, Hu.
  match goal with
  | |- context [Notification.send E (n, ?w1)] =>
      pose proof (send_frame E n w1) as (Hl & Ht & Ho & _)
  end.
  destruct (Notification.send E _) as [a [n1 w1]|e [n1 w1]];
    cbn in Hl, Ht, Ho; cbn; rewrite Hl, dict_get_store;
    destruct (dict_get k (_notifications w)); try congruence; cbn;
    eexists; (split; [reflexivity|]); cbn;
    rewrite Hl, dict_del_store, ?app_nil_r; auto.
Qed.
End LoopMore.

Section LoopBounds.
Variable E : env.

Lemma visit_outbox k n w :
  (List.length (outbox (final (NotificationHandler.visit E k n w)))
   <= S (List.length (outbox w)))%nat.
Proof.
  unfold NotificationHandler.visit, Notification.time_reached,
    NotificationHandler.delitem, NotificationHandler.graph. run.
  destruct (trigger_time n <=? clock w); [|cbn; lia].
  destruct (user_data n) eqn:Hu; cbn; try lia.
  match goal with
  | |- context [Notification.send E (n, ?w1)] =>
      pose proof (send_outcome E n w1) as (_ & _ & Hbound)
  end.
  destruct (Notification.send E _) as [a [n1 w1]|e [n1 w1]];
    cbn in Hbound; cbn;
    match goal with
    | |- context [dict_get k ?d] => destruct (dict_get k d)
    end; cbn; exact Hbound.
Qed.

Lemma scan_outbox items : forall w used,
  List.length (_notifications w) = used ->
  (List.length (outbox (final (NotificationHandler.scan E used items w)))
   <= S (List.length (outbox w)))%nat.
Proof.
  induction items as [|[k n] rest IH]; intros w used Hused.
  - rewrite scan_nil by exact Hused. cbn. lia.
  - rewrite scan_cons by exact Hused.
    destruct (due w (k, n)) eqn:Hd.
    + destruct (visit_due E k n w Hd) as [Hr _].
      pose proof (visit_outbox k n w) as Hb.
      destruct (NotificationHandler.visit E k n w); cbn in *;
        [discriminate | exact Hb].
    + rewrite visit_not_due by exact Hd. now apply IH.
Qed.

Lemma turn_outbox w :
  (List.length (outbox (final (NotificationHandler.turn E w)))
   <= S (List.length (outbox w)))%nat.
Proof.
  rewrite turn_run.
  pose proof (scan_outbox (_notifications w) w _ eq_refl) as Hb.
  destruct (_notifications w) as [|kv live]; [cbn; lia|].
  destruct (NotificationHandler.scan E _ _ w); exact Hb.
Qed.

(** A turn that returns has found nothing due, and has changed nothing. *)
Lemma turn_returns_unchanged w a w1 :
  NotificationHandler.turn E w = Ok a w1 -> w1 = w.
Proof.
  intros H. destruct (turn_spec E w) as [Hr _]. rewrite H in Hr. cbn in Hr.
  symmetry in Hr. rewrite (turn_idle_run E w Hr) in H. now inversion H.
Qed.

Lemma thread_outbox readings : forall w,
  (List.length (outbox (final (NotificationHandler._wait_notifications E readings w)))
   <= S (List.length (outbox w)))%nat.
Proof.
  induction readings as [|t later IH]; intros w; [cbn; lia|].
  rewrite thread_cons. destruct (running w); [|cbn; lia].
  pose proof (turn_outbox (set_clock t w)) as Hb.
  destruct (NotificationHandler.turn E (set_clock t w)) as [a w1|e w1] eqn:Hturn.
  - apply turn_returns_unchanged in Hturn. subst w1. apply (IH (set_clock t w)).
  - exact Hb.
Qed.
End LoopBounds.

Lemma turn_first_due E w pre k n u post :
  _notifications w = pre ++ (k, n) :: post ->
  ~ In k (dict_keys pre) ->
  (forall kv, In kv pre -> due w kv = false) ->
  due w (k, n) = true ->
  user_data n = UserRec u ->
  exists w',
    NotificationHandler.turn E w = Raise AttributeError w'
    /\ _notifications w' = pre ++ post
    /\ table w' = table w
    /\ (List.length (outbox w') <= S (List.length (outbox w)))%nat.
Proof.
  intros Hlive Hk Hpre Hdue Hu.
  pose proof (turn_outbox E w) as Hb.
  rewrite turn_run in *. rewrite Hlive in *.
  destruct (pre ++ (k, n) :: post) as [|kv l] eqn:Hl;
    [now destruct pre|]. rewrite <- Hl in *. clear kv l Hl.
  rewrite scan_skip in * by (rewrite ?Hlive, ?length_app; auto).
  rewrite scan_cons in * by now rewrite Hlive.
  destruct (visit_report E k n u w Hdue Hu) as (w' & Hrun & Hl' & Ht & _).
  { rewrite Hlive. apply dict_get_app_here. }
  rewrite Hrun in *. exists w'. cbn in Hb.
  rewrite Hl', Hlive, dict_del_app_here by exact Hk. auto.
Qed.

(** ** The loop *)

(** X1.  As long as no entry of the live set is due at any of the clock
    readings, the thread takes every turn, returns, and leaves everything
    but the clock as it was: nothing is sent, logged or removed early. *)
Theorem thread_waits_while_nothing_is_due E readings : forall w,
  running w = true ->
  (forall t, In t readings ->
             existsb (due (set_clock t w)) (_notifications w) = false) ->
  NotificationHandler._wait_notifications E readings w =
    Ok tt (clock_after readings w).
Proof.
  induction readings as [|t later IH]; intros w Hrun Hidle; [reflexivity|].
  rewrite thread_cons, Hrun.
  rewrite (turn_idle_run E (set_clock t w)) by (apply Hidle; now left).
  cbn [clock_after fold_left]. apply IH; [exact Hrun|].
  intros t' Ht'. apply (Hidle t'). now right.
Qed.

Lemma thread_waits_while_nothing_is_due_witness :
  running (set_clock 1000 dentist_due) = true
  /\ (forall t, In t [1100; 1200; 1399] ->
        existsb (due (set_clock t (set_clock 1000 dentist_due)))
                (_notifications (set_clock 1000 dentist_due)) = false)
  /\ NotificationHandler._wait_notifications env_up [1100; 1200; 1399]
       (set_clock 1000 dentist_due) =
     Ok tt (clock_after [1100; 1200; 1399] (set_clock 1000 dentist_due)).
Proof.
  assert (H : forall t, In t [1100; 1200; 1399] ->
                existsb (due (set_clock t (set_clock 1000 dentist_due)))
                        (_notifications (set_clock 1000 dentist_due)) = false).
  { intros t [<-|[<-|[<-|[]]]]; reflexivity. }
  split; [reflexivity|]. split; [exact H|].
  exact (thread_waits_while_nothing_is_due env_up [1100; 1200; 1399]
           (set_clock 1000 dentist_due) eq_refl H).
Defined.

(** X2.  In a turn, the entries before the first due one are passed over,
    the first due one (here with a user record) is taken out of the live
    set, and the turn ends there with [AttributeError]: the entries after
    it, due or not, stay where they are, the table is not written, and at
    most one request has gone to the relay. *)
Theorem turn_removes_first_due_only E w pre k n u post :
  _notifications w = pre ++ (k, n) :: post ->
  ~ In k (dict_keys pre) ->
  (forall kv, In kv pre -> due w kv = false) ->
  due w (k, n) = true ->
  user_data n = UserRec u ->
  exists w',
    NotificationHandler.turn E w = Raise AttributeError w'
    /\ _notifications w' = pre ++ post
    /\ table w' = table w
    /\ (List.length (outbox w') <= S (List.length (outbox w)))%nat.
Proof. apply turn_first_due. Qed.

Lemma turn_removes_first_due_only_witness :
  exists w',
    NotificationHandler.turn env_up
      (mkWorld [(SUuid 8, milk); (SUuid 9, dentist); (SUuid 7, hello)]
               true [] 0 1400 1%N [] []) = Raise AttributeError w'
    /\ _notifications w' = [(SUuid 9, dentist); (SUuid 7, hello)]
    /\ table w' = []
    /\ (List.length (outbox w') <= 1)%nat.
Proof.
  refine (turn_removes_first_due_only env_up
            (mkWorld [(SUuid 8, milk); (SUuid 9, dentist); (SUuid 7, hello)]
                     true [] 0 1400 1%N [] [])
            [] (SUuid 8) milk alice [(SUuid 9, dentist); (SUuid 7, hello)]
            eq_refl _ _ eq_refl eq_refl).
  - intros [].
  - intros kv [].
Defined.

(** X3.  When the loop visits a due entry that has a user record, an
    exception of [send] does not leave the loop: it is logged as an error
    that names the user and the exception, after whatever [send] itself
    logged, and nothing is logged when [send] returned.  Either way the
    entry is taken out of the live set, no session is opened, and the
    exception that does leave the visit is the [AttributeError] of
    [self.graph]. *)
Theorem delivery_failure_is_logged_not_raised E k n u w :
  due w (k, n) = true ->
  user_data n = UserRec u ->
  dict_get k (_notifications w) <> None ->
  exists w',
    NotificationHandler.visit E k n w = Raise AttributeError w'
    /\ _notifications w' = dict_del k (_notifications w)
    /\ open_sessions w' = open_sessions w
    /\ log w' =
         log (snd (final (Notification.send E
                            (n, add_log (INFO, SendingFor (username u)) w))))
         ++ delivery_report (username u)
              (Notification.send E (n, add_log (INFO, SendingFor (username u)) w)).
Proof.
  intros Hdue Hu Hk.
  destruct (visit_report E k n u w Hdue Hu Hk) as (w' & Hrun & Hl & _ & Ho & _ & Hlog).
  exists w'. auto.
Qed.

Lemma delivery_failure_is_logged_not_raised_witness :
  exists w',
    NotificationHandler.visit env_relay_down (SUuid 9) dentist dentist_due =
      Raise AttributeError w'
    /\ _notifications w' = []
    /\ open_sessions w' = 0%nat
    /\ log w' = [(INFO, SendingFor "alice"); (INFO, SendingTo "alice");
                 (ERROR, CouldntSend "alice" (External "ConnectionError"))].
Proof.
  refine (delivery_failure_is_logged_not_raised env_relay_down (SUuid 9) dentist
            alice dentist_due eq_refl eq_refl _).
  cbn. discriminate.
Defined.

(** X4.  However long the thread is watched and whatever the clock shows,
    it never writes to the table and it hands the relay at most one
    request: the turn that delivers is the last turn the thread takes. *)
Theorem thread_sends_at_most_once E readings w :
  table (final (NotificationHandler._wait_notifications E readings w)) = table w
  /\ (List.length
        (outbox (final (NotificationHandler._wait_notifications E readings w)))
      <= S (List.length (outbox w)))%nat.
Proof. split; [apply thread_store | apply thread_outbox]. Qed.

(** ** [notify], in every outcome *)

(** X5.  [notify] writes one row or none.  A call that raises anywhere
    before [session.close()] leaves the table as it was; a call that
    returns for a notification due within 300 seconds leaves it as it was;
    a call that returns for a later one has appended exactly the row built
    from the notification, the summary it read and the user record. *)
Theorem notify_writes_one_row_or_none E n w :
  (raises (NotificationHandler.notify E n w) = true ->
   store_fault E OpClose = None ->
   table (final (NotificationHandler.notify E n w)) = table w)
  /\ (raises (NotificationHandler.notify E n w) = false ->
      trigger_time n - clock w <= 300 ->
      table (final (NotificationHandler.notify E n w)) = table w)
  /\ (raises (NotificationHandler.notify E n w) = false ->
      300 < trigger_time n - clock w ->
      exists s u n',
        user_data n = UserRec u
        /\ Notification.summary E n = Ok s n'
        /\ table (final (NotificationHandler.notify E n w)) =
             table w ++ [stored_row n s u]).
Proof.
  unfold NotificationHandler.notify. run.
  cbn [clock trigger_time set_notifications].
  destruct (300 <? trigger_time n - clock w) eqn:Hlate.
  2:{ apply Z.ltb_ge in Hlate. cbn. repeat split; auto; lia. }
  apply Z.ltb_lt in Hlate.
  destruct (store_fault E OpSession); [cbn; repeat split; auto; discriminate|].
  cbn [_notifications set_open_sessions].
  destruct (Notification.summary E n) as [s n1|e n1]; cbn [fst snd];
    [|cbn; repeat split; auto; discriminate].
  destruct (user_data n) eqn:Hu; cbn;
    try (repeat split; auto; (discriminate || lia)).
  destruct (store_fault E OpAdd); cbn;
    try (repeat split; auto; (discriminate || lia)).
  destruct (store_fault E OpCommit); cbn;
    try (repeat split; auto; (discriminate || lia)).
  destruct (store_fault E OpClose); cbn.
  - repeat split; intros; (discriminate || lia).
  - split; [discriminate|]. split; [intros; lia|].
    intros _ _. exists s, u, n1. auto.
Qed.

(** X6.  In every outcome of [notify], also when the store fails, the
    notification sits in the live set under its uid when the call is over;
    it is the object that was passed, changed at most in the summary it
    caches. *)
Theorem notify_registers_in_every_outcome E n w :
  exists n',
    dict_get (uid n)
      (_notifications (final (NotificationHandler.notify E n w))) = Some n'
    /\ set_summary (_summary n) n' = n.
Proof. apply notify_always_registers. Qed.

(** X7.  A notification that is already due when it is registered, for a
    user and under a new uid, while nothing else is due: [notify] returns
    without touching the store, and the next turn of the loop takes it out
    of the live set again, which is then what it was before, and with the
    table as it was. *)
Theorem overdue_notification_leaves_on_next_turn E n u w :
  trigger_time n <= clock w ->
  user_data n = UserRec u ->
  dict_get (uid n) (_notifications w) = None ->
  existsb (due w) (_notifications w) = false ->
  exists w1 w2,
    NotificationHandler.notify E n w = Ok tt w1
    /\ table w1 = table w
    /\ NotificationHandler.turn E w1 = Raise AttributeError w2
    /\ _notifications w2 = _notifications w
    /\ table w2 = table w.
Proof.
  intros Hdue Hu Hnew Hidle.
  rewrite notify_soon by lia.
  destruct (turn_first_due E
              (set_notifications (dict_update (uid n) n) w)
              (_notifications w) (uid n) n u [])
    as (w2 & Hrun & Hlive & Htable & _).
  - cbn. now apply dict_update_absent.
  - intros Hin. apply dict_get_in_keys in Hin. congruence.
  - intros kv Hkv. now apply (existsb_false_all _ _ Hidle).
  - unfold due. cbn. now apply Z.leb_le.
  - exact Hu.
  - exists (set_notifications (dict_update (uid n) n) w), w2.
    rewrite app_nil_r in Hlive. auto.
Qed.

Lemma overdue_notification_leaves_on_next_turn_witness :
  exists w1 w2,
    NotificationHandler.notify env_up dentist (boot 1500 []) = Ok tt w1
    /\ table w1 = table (boot 1500 [])
    /\ NotificationHandler.turn env_up w1 = Raise AttributeError w2
    /\ _notifications w2 = _notifications (boot 1500 [])
    /\ table w2 = table (boot 1500 []).
Proof.
  refine (overdue_notification_leaves_on_next_turn env_up dentist alice
            (boot 1500 []) _ eq_refl eq_refl eq_refl).
  cbn. lia.
Defined.

(** ** The startup load, more closely *)

Section PullMore.
Variable E : env.

Lemma pull_unfold w :
  (forall op, store_fault E op = None) ->
  NotificationHandler._pull_notificatons E w =
    match table w with
    | [] => Ok tt (add_log (INFO, NoNotificationsFound) w)
    | _ :: _ =>
        match NotificationHandler.reload_all E (table w) (set_open_sessions S w) with
        | Ok _ w1 => Ok tt (set_open_sessions pred w1)
        | Raise e w1 => Raise e w1
        end
    end.
Proof.
  intros Hstore. unfold NotificationHandler._pull_notificatons. run.
  rewrite !Hstore. change (table (set_open_sessions S w)) with (table w).
  destruct (table w) as [|row rest]; [now destruct w|].
  now destruct (NotificationHandler.reload_all E _ _).
Qed.

Lemma dict_get_none_keys {V} k (d : dict V) :
  dict_get k d = None <-> ~ In k (dict_keys d).
Proof.
  rewrite <- dict_get_in_keys. destruct (dict_get k d); split; try congruence.
  intros H. exfalso. apply H. discriminate.
Qed.

(** Rows whose uids are new to the live set and differ from each other
    are appended in the order of the table. *)
Lemma reload_all_keys_fresh rows : forall w w',
  NoDup (dict_keys (_notifications w) ++ map NotificationStore.uid rows) ->
  NotificationHandler.reload_all E rows w = Ok tt w' ->
  dict_keys (_notifications w') =
    dict_keys (_notifications w) ++ map NotificationStore.uid rows.
Proof.
  induction rows as [|row rest IH]; intros w w' Hnd Hrun.
  - cbn in Hrun. inversion Hrun; subst. cbn. now rewrite app_nil_r.
  - rewrite reload_all_cons in Hrun.
    destruct (NotificationHandler.reload E row w) as [n w1|e w1] eqn:Hr;
      [|discriminate].
    apply reload_clock in Hr as [_ Hlive].
    assert (Hnew : dict_get (NotificationStore.uid row) (_notifications w) = None).
    { apply dict_get_none_keys. intros Hin.
      apply NoDup_remove_2 in Hnd. apply Hnd, in_or_app. now left. }
    cbn [map] in *.
    specialize (IH (set_notifications (dict_update (NotificationStore.uid row) n) w1) w').
    cbn [_notifications set_notifications] in IH.
    rewrite Hlive, dict_update_absent, dict_keys_app in IH by exact Hnew.
    cbn in IH. rewrite <- app_assoc in IH. cbn in IH.
    now apply IH.
Qed.

(** Rows whose uids already key the live set add no key and move none. *)
Lemma reload_all_keys_present rows : forall w w',
  (forall row, In row rows ->
               In (NotificationStore.uid row) (dict_keys (_notifications w))) ->
  NotificationHandler.reload_all E rows w = Ok tt w' ->
  dict_keys (_notifications w') = dict_keys (_notifications w).
Proof.
  induction rows as [|row rest IH]; intros w w' Hin Hrun.
  - cbn in Hrun. now inversion Hrun; subst.
  - rewrite reload_all_cons in Hrun.
    destruct (NotificationHandler.reload E row w) as [n w1|e w1] eqn:Hr;
      [|discriminate].
    apply reload_clock in Hr as [_ Hlive].
    assert (Hkeys : dict_keys (dict_update (NotificationStore.uid row) n (_notifications w))
                    = dict_keys (_notifications w)).
    { apply dict_keys_update_present, dict_get_in_keys, Hin. now left. }
    assert (Hrest : forall r, In r rest ->
              In (NotificationStore.uid r)
                 (dict_keys (_notifications
                    (set_notifications
                       (dict_update (NotificationStore.uid row) n) w1)))).
    { intros r Hr. cbn [_notifications set_notifications].
      rewrite Hlive, Hkeys. apply Hin. now right. }
    rewrite (IH _ _ Hrest Hrun). cbn [_notifications set_notifications].
    now rewrite Hlive, Hkeys.
Qed.

(** What the live set holds for a row, when no two rows share a uid, is
    what [reload] builds from that row at some state of the load. *)
Lemma reload_all_entry_built rows : forall w w' row,
  NoDup (map NotificationStore.uid rows) ->
  In row rows ->
  NotificationHandler.reload_all E rows w = Ok tt w' ->
  exists wa wb n,
    NotificationHandler.reload E row wa = Ok n wb
    /\ dict_get (NotificationStore.uid row) (_notifications w') = Some n.
Proof.
  induction rows as [|r rest IH]; intros w w' row Hnd Hin Hrun; [destruct Hin|].
  rewrite reload_all_cons in Hrun.
  destruct (NotificationHandler.reload E r w) as [n w1|e w1] eqn:Hr;
    [|discriminate].
  cbn [map] in Hnd. inversion Hnd as [|x l Hnotin Hnd']; subst.
  destruct Hin as [->|Hin].
  - destruct (reload_all_other E _ _ _ _ Hrun Hnotin) as [Hget _].
    exists w, w1, n. split; [exact Hr|]. rewrite Hget.
    cbn [_notifications set_notifications]. apply dict_get_update.
  - apply (IH _ _ row Hnd' Hin Hrun).
Qed.
End PullMore.

Lemma split_space_length s : List.length (split_space s) = S (spaces s).
Proof.
  induction s as [|c s IH]; [reflexivity|]. cbn [split_space spaces].
  destruct (Ascii.eqb c " "); cbn [List.length]; [now rewrite IH|].
  destruct (split_space s); cbn in *; lia.
Qed.

(** X8.  A load that finds no row logs that no notification was found and
    does nothing else: the live set, the table and the number of open
    sessions are as before. *)
Theorem pull_of_empty_table_only_logs E w :
  (forall op, store_fault E op = None) ->
  table w = [] ->
  NotificationHandler._pull_notificatons E w =
    Ok tt (add_log (INFO, NoNotificationsFound) w).
Proof.
  intros Hstore Hempty. rewrite pull_unfold by exact Hstore. now rewrite Hempty.
Qed.

Lemma pull_of_empty_table_only_logs_witness :
  NotificationHandler._pull_notificatons env_up (boot 2000 []) =
    Ok tt (add_log (INFO, NoNotificationsFound) (boot 2000 [])).
Proof.
  refine (pull_of_empty_table_only_logs env_up (boot 2000 []) _ eq_refl).
  reflexivity.
Defined.

(** X9.  When the uids of the rows differ from each other and from the
    keys already in the live set, the load appends one entry per row, in
    the order of the table, after the entries that were there; it returns,
    closes its session and leaves the table alone. *)
Theorem pull_adds_one_entry_per_row E w :
  (forall op, store_fault E op = None) ->
  NoDup (dict_keys (_notifications w) ++ map NotificationStore.uid (table w)) ->
  exists w',
    NotificationHandler._pull_notificatons E w = Ok tt w'
    /\ dict_keys (_notifications w') =
         dict_keys (_notifications w) ++ map NotificationStore.uid (table w)
    /\ table w' = table w
    /\ open_sessions w' = open_sessions w.
Proof.
  intros Hstore Hnd. rewrite pull_unfold by exact Hstore.
  destruct (table w) as [|row rest] eqn:Hrows.
  - eexists. split; [reflexivity|]. cbn. now rewrite app_nil_r.
  - destruct (reload_all_frame E (row :: rest) (set_open_sessions S w))
      as (w1 & Hrun & Ho & Ht & _).
    rewrite Hrun. eexists. split; [reflexivity|].
    cbn [_notifications table open_sessions set_open_sessions].
    rewrite (reload_all_keys_fresh E _ (set_open_sessions S w) _ Hnd Hrun), Ht, Ho.
    cbn. auto.
Qed.

Lemma pull_adds_one_entry_per_row_witness :
  exists w',
    NotificationHandler._pull_notificatons env_up
      (boot 2000 [dentist_row; milk_row]) = Ok tt w'
    /\ dict_keys (_notifications w') = [SUuid 9; SUuid 8]
    /\ table w' = [dentist_row; milk_row]
    /\ open_sessions w' = 0%nat.
Proof.
  refine (pull_adds_one_entry_per_row env_up (boot 2000 [dentist_row; milk_row]) _ _).
  - reflexivity.
  - cbn. repeat constructor; cbn; intuition discriminate.
Defined.

(** X10.  The live set belongs to the class, so a second handler loads
    into the dictionary the first one filled.  With a store that works, a
    second load over the same table adds no key and moves none: every row
    replaces the value under its uid. *)
Theorem second_pull_adds_no_key E w w1 :
  (forall op, store_fault E op = None) ->
  NotificationHandler._pull_notificatons E w = Ok tt w1 ->
  exists w2,
    NotificationHandler._pull_notificatons E w1 = Ok tt w2
    /\ dict_keys (_notifications w2) = dict_keys (_notifications w1)
    /\ table w2 = table w.
Proof.
  intros Hstore Hfirst.
  destruct (pull_run E w Hstore) as (w1' & Hrun & Ht & _ & Hall).
  rewrite Hfirst in Hrun. inversion Hrun; subst w1'. clear Hrun.
  rewrite pull_unfold by exact Hstore. rewrite Ht.
  destruct (table w) as [|row rest] eqn:Hrows.
  - eexists. split; [reflexivity|]. cbn. auto.
  - destruct (reload_all_frame E (row :: rest) (set_open_sessions S w1))
      as (w2 & Hrun & _ & Ht2 & _).
    rewrite Hrun. eexists. split; [reflexivity|].
    cbn [_notifications table set_open_sessions].
    assert (Hin : forall r, In r (row :: rest) ->
              In (NotificationStore.uid r)
                 (dict_keys (_notifications (set_open_sessions S w1)))).
    { intros r Hr. cbn. apply dict_get_in_keys. now apply Hall. }
    rewrite (reload_all_keys_present E _ _ _ Hin Hrun).
    cbn. rewrite Ht2. cbn. auto.
Qed.

Lemma second_pull_adds_no_key_witness :
  exists w2,
    NotificationHandler._pull_notificatons env_up
      (mkWorld [(SUuid 8, milk_reloaded)] true [milk_row] 0 2000 1%N [] []) =
      Ok tt w2
    /\ dict_keys (_notifications w2) = [SUuid 8]
    /\ table w2 = [milk_row].
Proof.
  refine (second_pull_adds_no_key env_up (boot 2000 [milk_row])
            (mkWorld [(SUuid 8, milk_reloaded)] true [milk_row] 0 2000 1%N [] [])
            _ eq_refl).
  reflexivity.
Defined.

(** X11.  What survives a restart.  A notification due in more than 300
    seconds, stored by [notify] under a uid no row has yet, and loaded
    again by a process that starts over the table at any later time, is
    found under the same key with the same trigger time, the same scope
    and, its message being ASCII, the same message. *)
Theorem payload_survives_restart E n w u s n' t :
  text_normaliser (ascii_text E) ->
  is_ascii (message n) = true ->
  300 < trigger_time n - clock w ->
  (forall op, store_fault E op = None) ->
  user_data n = UserRec u ->
  Notification.summary E n = Ok s n' ->
  NoDup (map NotificationStore.uid (table w) ++ [uid n]) ->
  exists w1 w2 r,
    NotificationHandler.notify E n w = Ok tt w1
    /\ NotificationHandler._pull_notificatons E (boot t (table w1)) = Ok tt w2
    /\ dict_get (uid n) (_notifications w2) = Some r
    /\ trigger_time r = trigger_time n
    /\ scope r = scope n
    /\ message r = message n.
Proof.
  intros Hnorm Hascii Hlate Hstore Hu Hs Hnd.
  rewrite (notify_late E n w u s n' Hlate Hstore Hu Hs).
  set (rows := table w ++ [stored_row n s u]).
  destruct (reload_all_frame E rows (set_open_sessions S (boot t rows)))
    as (w2 & Hrun & _).
  assert (Hnd' : NoDup (map NotificationStore.uid rows))
    by (unfold rows; now rewrite map_app).
  assert (Hin : In (stored_row n s u) rows)
    by (unfold rows; apply in_or_app; right; now left).
  destruct (reload_all_entry_built E _ _ _ _ Hnd' Hin Hrun)
    as (wa & wb & r & Hr & Hget).
  exists (set_table (fun l => l ++ [stored_row n s u])
            (set_notifications (dict_update (uid n) n') w)),
         (set_open_sessions pred w2), r.
  split; [reflexivity|]. split.
  { rewrite pull_unfold by exact Hstore.
    change (table (boot t (table (set_table (fun l => l ++ [stored_row n s u])
              (set_notifications (dict_update (uid n) n') w))))) with rows.
    change (table (set_table (fun l => l ++ [stored_row n s u])
              (set_notifications (dict_update (uid n) n') w))) with rows.
    rewrite Hrun. destruct rows eqn:Hrows; [|reflexivity].
    destruct Hin. }
  split; [exact Hget|].
  rewrite reload_run in Hr. cbn zeta in Hr. inversion Hr; subst r. cbn.
  repeat split. now apply norm_ascii.
Qed.

Lemma payload_survives_restart_witness :
  exists w1 w2 r,
    NotificationHandler.notify env_up milk (boot 1000 [dentist_row]) = Ok tt w1
    /\ NotificationHandler._pull_notificatons env_up (boot 5000 (table w1)) = Ok tt w2
    /\ dict_get (uid milk) (_notifications w2) = Some r
    /\ trigger_time r = trigger_time milk
    /\ scope r = scope milk
    /\ message r = message milk.
Proof.
  refine (payload_survives_restart env_up milk (boot 1000 [dentist_row]) alice
            (Str "Buy milk") milk_read 5000 ascii_ignore_normaliser eq_refl _ _
            eq_refl eq_refl _).
  - cbn. lia.
  - reflexivity.
  - cbn. repeat constructor; cbn; intuition discriminate.
Defined.

(** ** [Notification], more closely *)

(** X12.  Which branch the summary takes depends on the number of spaces
    in the message alone, empty pieces counting as words.  With no summary
    in the slot: a message with at most three spaces has its encoding as
    summary, which is the message itself when the message is ASCII and the
    encoder a normaliser; a message with four spaces or more, wherever they
    stand, has the list of its first four pieces handed to the encoder. *)
Theorem summary_branches_on_spaces E n :
  truthy (_summary n) = false ->
  ((spaces (message n) < 4)%nat ->
   Notification.summary E n =
     Ok (Str (ascii_text E (message n)))
        (set_summary (Str (ascii_text E (message n))) n)
   /\ (text_normaliser (ascii_text E) -> is_ascii (message n) = true ->
       Notification.summary E n =
         Ok (Str (message n)) (set_summary (Str (message n)) n)))
  /\ ((4 <= spaces (message n))%nat ->
      Notification.summary E n =
        match ascii_other E (StrList (firstn 4 (split_space (message n)))) with
        | inl e =>
            Raise e (set_summary (StrList (firstn 4 (split_space (message n)))) n)
        | inr v => Ok v (set_summary v n)
        end).
Proof.
  intros Hno. split.
  - intros Hfew.
    assert (Hshort : Notification.summary E n =
              Ok (Str (ascii_text E (message n)))
                 (set_summary (Str (ascii_text E (message n))) n)).
    { apply summary_short; [exact Hno|]. rewrite split_space_length. lia. }
    split; [exact Hshort|].
    intros Hnorm Hascii. now rewrite Hshort, (norm_ascii _ Hnorm _ Hascii).
  - intros Hmany. apply summary_long; [exact Hno|].
    rewrite split_space_length. lia.
Qed.

Lemma summary_branches_on_spaces_witness :
  truthy (_summary (set_summary None_ (mkNotification "W.I.L.L - t" "a    "
            "email" DbHandle None_ (SDate 0) (SUuid 1) 10 (UserRec alice)))) = false
  /\ Notification.summary env_up milk =
       Ok (Str "Buy milk") (set_summary (Str "Buy milk") milk)
  /\ Notification.summary env_up
       (mkNotification "W.I.L.L - t" "a    " "email" DbHandle None_ (SDate 0)
          (SUuid 1) 10 (UserRec alice)) =
     Raise AttributeError
       (set_summary (StrList ["a"; ""; ""; ""])
          (mkNotification "W.I.L.L - t" "a    " "email" DbHandle None_ (SDate 0)
             (SUuid 1) 10 (UserRec alice))).
Proof.
  split; [reflexivity|]. split.
  - destruct (summary_branches_on_spaces env_up milk eq_refl) as [Hfew _].
    assert (Hlt : (spaces (message milk) < 4)%nat) by (cbn; lia).
    exact (proj1 (Hfew Hlt)).
  - destruct (summary_branches_on_spaces env_up
                (mkNotification "W.I.L.L - t" "a    " "email" DbHandle None_
                   (SDate 0) (SUuid 1) 10 (UserRec alice)) eq_refl) as [_ Hmany].
    apply Hmany. cbn. lia.
Defined.

(** X13.  An empty summary is no summary: whatever falsy value sits in the
    slot ([None], the empty text, an empty list), the read computes the
    summary from the message, with the same answer and the same object
    afterwards as if the slot held [None]. *)
Theorem empty_summary_is_recomputed E n a :
  truthy a = false ->
  Notification.summary E (set_summary a n) =
    Notification.summary E (set_summary None_ n).
Proof.
  intros Ha. rewrite !summary_computed by (exact Ha || reflexivity).
  cbn [message set_summary].
  now destruct (ascii_encode E (summary_raw (message n))).
Qed.

Lemma empty_summary_is_recomputed_witness :
  truthy (Str "") = false
  /\ Notification.summary env_up (set_summary (Str "") milk) =
       Notification.summary env_up (set_summary None_ milk).
Proof.
  split; [reflexivity|].
  exact (empty_summary_is_recomputed env_up milk (Str "") eq_refl).
Defined.

(** X14.  [email] posts one request or none, and logs nothing.  When it
    raises (no key, no user record, no address, no summary, a relay that
    refuses) the outbox is as it was; when it returns, exactly one request
    has been accepted by the relay: its text is the message, its subject is
    the summary, which is now cached in the object, it comes from the fixed
    sender and is authenticated as ["api"].  The object is otherwise
    unchanged. *)
Theorem email_posts_once_or_not_at_all E n w :
  log (snd (final (Notification.email E (n, w)))) = log w
  /\ set_summary (_summary n) (fst (final (Notification.email E (n, w)))) = n
  /\ (raises (Notification.email E (n, w)) = true ->
      outbox (snd (final (Notification.email E (n, w)))) = outbox w)
  /\ (raises (Notification.email E (n, w)) = false ->
      exists m,
        outbox (snd (final (Notification.email E (n, w)))) = outbox w ++ [m]
        /\ relay E m = None
        /\ mail_text m = message n
        /\ mail_subject m = _summary (fst (final (Notification.email E (n, w))))
        /\ mail_from m = "will <postmaster@willbeddow.com>"
        /\ fst (mail_auth m) = "api").
Proof.
  destruct (email_outcome E n w) as (Hlog & _ & Hfr & Hr & Hs). auto.
Qed.

(** X15.  A user without an ["email"] entry in the settings: with scope
    ["email"] and the relay's key at hand, [send] logs the line that
    announces the delivery and raises [KeyError]; nothing is posted and the
    object is unchanged. *)
Theorem send_without_address_raises_key_error E n u w ku :
  user_data n = UserRec u ->
  scope n = "email" ->
  load_key E (db n) = inr ku ->
  assoc "email" (settings u) = None ->
  Notification.send E (n, w) =
    Raise KeyError (n, add_log (INFO, SendingTo (username u)) w).
Proof.
  intros Hu Hscope Hkey Hnone.
  unfold Notification.send, Notification.email. run.
  rewrite Hu, Hscope. cbn. rewrite Hkey. cbn. rewrite Hu. cbn.
  rewrite settings_get_assoc, Hnone. reflexivity.
Qed.

Lemma send_without_address_raises_key_error_witness :
  Notification.send env_up
    (mkNotification "W.I.L.L - t" "m" "email" DbHandle None_ (SDate 0) (SUuid 1)
       10 (UserRec (mkUser "bob" "Bob" "Stone" [("city", "Oslo")])),
     boot 20 []) =
  Raise KeyError
    (mkNotification "W.I.L.L - t" "m" "email" DbHandle None_ (SDate 0) (SUuid 1)
       10 (UserRec (mkUser "bob" "Bob" "Stone" [("city", "Oslo")])),
     add_log (INFO, SendingTo "bob") (boot 20 [])).
Proof.
  exact (send_without_address_raises_key_error env_up
           (mkNotification "W.I.L.L - t" "m" "email" DbHandle None_ (SDate 0)
              (SUuid 1) 10 (UserRec (mkUser "bob" "Bob" "Stone" [("city", "Oslo")])))
           (mkUser "bob" "Bob" "Stone" [("city", "Oslo")]) (boot 20 [])
           ("key-0", "https://relay.example/messages")
           eq_refl eq_refl eq_refl eq_refl).
Defined.

(** X16.  Whatever [send] does and however it ends, it changes nothing of
    the live set, the table, the open sessions, the clock and the running
    flag, it changes nothing of the object but the summary it caches, and
    it posts at most one request. *)
Theorem send_touches_log_outbox_and_summary_only E n w :
  same_registry w (snd (final (Notification.send E (n, w))))
  /\ set_summary (_summary n) (fst (final (Notification.send E (n, w)))) = n
  /\ (List.length (outbox (snd (final (Notification.send E (n, w)))))
      <= S (List.length (outbox w)))%nat.
Proof. apply send_outcome. Qed.

(** X17.  A notification built with a trigger time that is not after the
    clock is due as soon as it is built, and stays due at every later
    reading of the clock. *)
Theorem overdue_at_construction_is_reached E m t trig sc d ud sm u c w :
  trig <= clock w ->
  exists n w1,
    Notification.__init__ E m t trig sc d ud sm u c w = Ok n w1
    /\ forall later, clock w <= later ->
         Notification.time_reached n (set_clock later w1) =
           Ok true (set_clock later w1).
Proof.
  intros Hdue. rewrite init_run. eexists. eexists. split; [reflexivity|].
  intros later Hlater. unfold Notification.time_reached. run.
  cbn [trigger_time].
  replace (clock (set_clock later _)) with later
    by (now destruct (truthy_scalar u)).
  assert (H : (trig <=? later) = true) by (apply Z.leb_le; lia).
  now rewrite H.
Qed.

Lemma overdue_at_construction_is_reached_witness :
  990 <= clock (boot 1000 [])
  /\ exists n w1,
       Notification.__init__ env_up "Buy milk" "Reminder" 990 "sms" DbHandle
         (UserRec alice) None_ SNone SNone (boot 1000 []) = Ok n w1
       /\ forall later, clock (boot 1000 []) <= later ->
            Notification.time_reached n (set_clock later w1) =
              Ok true (set_clock later w1).
Proof.
  assert (H : 990 <= clock (boot 1000 [])) by (cbn; lia).
  split; [exact H|].
  exact (overdue_at_construction_is_reached env_up "Buy milk" "Reminder" 990
           "sms" DbHandle (UserRec alice) None_ SNone SNone (boot 1000 []) H).
Defined.

(** ** The session routes *)

Ltac run_route :=
  cbv [API.serve API.except_KeyError API.on_response API.api_info
       bind gets ret modify raise lift_sum final raises];
  cbn [fst snd].

Lemma form_get_assoc k form (s : response * api) :
  API.form_get k form s =
    match assoc k form with
    | Some v => Ok v s
    | None => Raise KeyError s
    end.
Proof.
  induction form as [|[k' v] r IH]; cbn; [reflexivity|].
  destruct (String.eqb k k'); [reflexivity | exact IH].
Qed.

Lemma session_get_assoc k d (s : response * api) :
  API.session_get k d s =
    match assoc k d with
    | Some v => Ok v s
    | None => Raise KeyError s
    end.
Proof.
  induction d as [|[k' v] r IH]; cbn; [reflexivity|].
  destruct (String.eqb k k'); [reflexivity | exact IH].
Qed.

Lemma dict_del_absent {V} k (d : dict V) : dict_get k d = None -> dict_del k d = d.
Proof.
  induction d as [|[k' v] r IH]; cbn; [reflexivity|].
  destruct (scalar_eqb k k'); [discriminate|]. intros H. now rewrite IH.
Qed.

Lemma dict_get_del_other {V} k k' (d : dict V) :
  k' <> k -> dict_get k' (dict_del k d) = dict_get k' d.
Proof.
  intros Hne. induction d as [|[k0 v] r IH]; cbn; [reflexivity|].
  destruct (scalar_eqb k k0) eqn:Hk; cbn.
  - apply scalar_eqb_eq in Hk. subst k0.
    destruct (scalar_eqb k' k) eqn:Hk'; [|reflexivity].
    apply scalar_eqb_eq in Hk'. congruence.
  - now rewrite IH.
Qed.

Lemma dict_get_del_same {V} k (d : dict V) :
  NoDup (dict_keys d) -> dict_get k (dict_del k d) = None.
Proof.
  unfold dict_keys. induction d as [|[k0 v] r IH]; cbn; [reflexivity|].
  intros Hnd. inversion Hnd as [|x l Hnotin Hnd']; subst.
  destruct (scalar_eqb k k0) eqn:Hk; cbn.
  - apply scalar_eqb_eq in Hk. subst k0.
    now apply dict_get_none_keys.
  - rewrite Hk. now apply IH.
Qed.

(** What [end_session] does, for every request and every state. *)
Lemma end_session_run form a :
  API.end_session form a =
    match assoc "session_id" form with
    | None =>
        Ok (mkResponse (Some "error")
              (Some "Couldn't find session id in request data") [])
           (mkApi (core_sessions a) (users a)
                  (api_log a ++ [(INFO, ":API:/api/end_session")]))
    | Some sid =>
        match dict_get (SStr sid) (core_sessions a) with
        | Some _ =>
            Ok (mkResponse (Some "success") (Some "Ended session") [])
               (mkApi (dict_del (SStr sid) (core_sessions a)) (users a)
                      ((api_log a ++ [(INFO, ":API:/api/end_session")])
                       ++ [(INFO, (":" ++ sid ++ ":Ending session")%string)]))
        | None =>
            Ok (mkResponse (Some "error")
                  (Some ("Session id " ++ sid ++ " wasn't found in core.sessions")%string)
                  [])
               (mkApi (core_sessions a) (users a)
                      (api_log a ++ [(INFO, ":API:/api/end_session")]))
        end
    end.
Proof.
  unfold API.end_session. run_route. rewrite form_get_assoc.
  destruct (assoc "session_id" form) as [sid|]; cbn; [|reflexivity].
  now destruct (dict_get (SStr sid) (core_sessions a)).
Qed.

(** What [check_session] does, for every request and every state. *)
Lemma check_session_run E form a :
  API.check_session E form a =
    let a' := mkApi (core_sessions a) (users a)
                    (api_log a ++ [(INFO, ":API:/api/check_session")]) in
    match assoc "session_id" form with
    | None =>
        Ok (mkResponse (Some "error")
              (Some "Couldn't find session_id in request data")
              [("valid", JBool false)]) a'
    | Some sid =>
        let valid := match dict_get (SStr sid) (core_sessions a) with
                     | Some _ => true
                     | None => false
                     end in
        if check_string E sid then
          Ok (mkResponse (Some "success")
                (Some (if valid
                       then ("Session id " ++ sid ++ " is valid")%string
                       else ("Session id " ++ sid ++ " is invalid")%string))
                [("valid", JBool valid)]) a'
        else
          Ok (mkResponse (Some "error") (Some "Invalid input")
                [("valid", JBool valid)]) a'
    end.
Proof.
  unfold API.check_session. run_route. rewrite form_get_assoc.
  destruct (assoc "session_id" form) as [sid|]; cbn; [|reflexivity].
  destruct (check_string E sid); cbn; [|reflexivity].
  now destruct (dict_get (SStr sid) (core_sessions a)).
Qed.

Lemma owned_by_app name a b :
  owned_by name (a ++ b) = owned_by name a ++ owned_by name b.
Proof. unfold owned_by. now rewrite filter_app, map_app. Qed.

(** The loop of [get_sessions], while every session names its user. *)
Lemma collect_run name sessions : forall t x acc a,
  Forall (fun kv => assoc "username" (snd kv) <> None) sessions ->
  API.collect name sessions (mkResponse t x [("sessions", JKeys acc)], a) =
    Ok tt (mkResponse t x [("sessions", JKeys (acc ++ owned_by name sessions))], a).
Proof.
  induction sessions as [|[k entries] rest IH]; intros t x acc a Hall.
  - cbn. unfold ret. now rewrite app_nil_r.
  - inversion Hall as [|kv l Hk Hrest]; subst. cbn [snd] in Hk.
    cbn [API.collect]. unfold bind at 1. rewrite session_get_assoc.
    change ((k, entries) :: rest) with ([(k, entries)] ++ rest).
    rewrite owned_by_app. unfold owned_by at 1. cbn [filter map snd fst].
    destruct (assoc "username" entries) as [owner|]; [|congruence].
    unfold bind at 1.
    destruct (String.eqb owner name); run_route; cbn.
    + unfold API.data_append. cbn.
      rewrite IH by exact Hrest. now rewrite <- app_assoc.
    + rewrite IH by exact Hrest. reflexivity.
Qed.

(** The same loop, up to the first session that does not name its user. *)
Lemma collect_stops name pre : forall k entries post t x acc a,
  Forall (fun kv => assoc "username" (snd kv) <> None) pre ->
  assoc "username" entries = None ->
  API.collect name (pre ++ (k, entries) :: post)
    (mkResponse t x [("sessions", JKeys acc)], a) =
    Raise KeyError (mkResponse t x [("sessions", JKeys (acc ++ owned_by name pre))], a).
Proof.
  induction pre as [|[k0 entries0] pre IH]; intros k entries post t x acc a Hall Hnone.
  - cbn [app API.collect]. unfold bind at 1. rewrite session_get_assoc, Hnone.
    cbn. now rewrite app_nil_r.
  - inversion Hall as [|kv l Hk Hrest]; subst. cbn [snd] in Hk.
    cbn [app API.collect]. unfold bind at 1. rewrite session_get_assoc.
    change ((k0, entries0) :: pre) with ([(k0, entries0)] ++ pre).
    rewrite owned_by_app. unfold owned_by at 1. cbn [filter map snd fst].
    destruct (assoc "username" entries0) as [owner|]; [|congruence].
    unfold bind at 1.
    destruct (String.eqb owner name); run_route; cbn.
    + unfold API.data_append. cbn.
      rewrite IH by assumption. now rewrite <- app_assoc.
    + rewrite IH by assumption. reflexivity.
Qed.

(** X18.  Ending a session that exists removes that session and no other:
    the route answers success, the session id is no longer a key of
    [core.sessions], every other session is what it was, and the users are
    untouched. *)
Theorem end_session_removes_that_session_only form a sid :
  assoc "session_id" form = Some sid ->
  dict_get (SStr sid) (core_sessions a) <> None ->
  NoDup (dict_keys (core_sessions a)) ->
  exists a',
    API.end_session form a =
      Ok (mkResponse (Some "success") (Some "Ended session") []) a'
    /\ dict_get (SStr sid) (core_sessions a') = None
    /\ (forall k, k <> SStr sid ->
                  dict_get k (core_sessions a') = dict_get k (core_sessions a))
    /\ users a' = users a.
Proof.
  intros Hform Hin Hnd. rewrite end_session_run, Hform.
  destruct (dict_get (SStr sid) (core_sessions a)) eqn:Hget; [|congruence].
  eexists. split; [reflexivity|]. cbn.
  split; [now apply dict_get_del_same|]. split; [|reflexivity].
  intros k Hk. now apply dict_get_del_other.
Qed.

Lemma end_session_removes_that_session_only_witness :
  exists a',
    API.end_session [("session_id", "s2")] api_sample =
      Ok (mkResponse (Some "success") (Some "Ended session") []) a'
    /\ dict_get (SStr "s2") (core_sessions a') = None
    /\ (forall k, k <> SStr "s2" ->
                  dict_get k (core_sessions a') = dict_get k (core_sessions api_sample))
    /\ users a' = users api_sample.
Proof.
  refine (end_session_removes_that_session_only [("session_id", "s2")]
            api_sample "s2" eq_refl _ _).
  - cbn. discriminate.
  - cbn. repeat constructor; cbn; intuition discriminate.
Defined.

(** X19.  A request to end a session that carries no session id, or the id
    of no session, is answered with an error and changes nothing but the
    log: no session is removed. *)
Theorem end_session_of_unknown_changes_nothing form a :
  match assoc "session_id" form with
  | Some sid => dict_get (SStr sid) (core_sessions a) = None
  | None => True
  end ->
  exists r a',
    API.end_session form a = Ok r a'
    /\ rtype r = Some "error"
    /\ core_sessions a' = core_sessions a
    /\ users a' = users a.
Proof.
  intros H. rewrite end_session_run.
  destruct (assoc "session_id" form) as [sid|].
  - rewrite H. eexists. eexists. split; [reflexivity|]. cbn. auto.
  - eexists. eexists. split; [reflexivity|]. cbn. auto.
Qed.

Lemma end_session_of_unknown_changes_nothing_witness :
  exists r a',
    API.end_session [("session_id", "s9")] api_sample = Ok r a'
    /\ rtype r = Some "error"
    /\ core_sessions a' = core_sessions api_sample
    /\ users a' = users api_sample.
Proof.
  refine (end_session_of_unknown_changes_nothing [("session_id", "s9")]
            api_sample _).
  reflexivity.
Defined.

(** X20.  [check_session] always returns, never touches the sessions or
    the users, and always reports under ["valid"] whether the session id
    of the request keys [core.sessions]: also when the text check rejects
    the id and the answer is an error, and [False] when the request
    carries no id. *)
Theorem check_session_reports_membership E form a :
  exists r a',
    API.check_session E form a = Ok r a'
    /\ core_sessions a' = core_sessions a
    /\ users a' = users a
    /\ rdata r =
         [("valid",
           JBool match assoc "session_id" form with
                 | Some sid =>
                     match dict_get (SStr sid) (core_sessions a) with
                     | Some _ => true
                     | None => false
                     end
                 | None => false
                 end)]
    /\ rtype r =
         Some match assoc "session_id" form with
              | Some sid => if check_string E sid then "success" else "error"
              | None => "error"
              end.
Proof.
  rewrite check_session_run. cbn zeta.
  destruct (assoc "session_id" form) as [sid|].
  - destruct (check_string E sid); eexists; eexists;
      (split; [reflexivity|]); cbn; auto.
  - eexists. eexists. split; [reflexivity|]. cbn. auto.
Qed.

(** X21.  After [end_session] has answered a request, whatever it
    answered, [check_session] on the same request reports the session as
    not valid. *)
Theorem ended_session_is_not_valid E form a :
  NoDup (dict_keys (core_sessions a)) ->
  exists r1 a1 r2 a2,
    API.end_session form a = Ok r1 a1
    /\ API.check_session E form a1 = Ok r2 a2
    /\ rdata r2 = [("valid", JBool false)].
Proof.
  intros Hnd. rewrite end_session_run.
  destruct (assoc "session_id" form) as [sid|] eqn:Hform.
  - destruct (dict_get (SStr sid) (core_sessions a)) eqn:Hget;
      destruct (check_string E sid) eqn:Hcheck;
      eexists; eexists; eexists; eexists; (split; [reflexivity|]);
      rewrite check_session_run, Hform; cbn [core_sessions];
      rewrite ?dict_get_del_same, ?Hget, Hcheck by exact Hnd;
      cbn zeta; (split; reflexivity).
  - eexists. eexists. eexists. eexists. split; [reflexivity|].
    rewrite check_session_run, Hform. cbn zeta. split; reflexivity.
Qed.

Lemma ended_session_is_not_valid_witness :
  exists r1 a1 r2 a2,
    API.end_session [("session_id", "s1")] api_sample = Ok r1 a1
    /\ API.check_session api_env_plain [("session_id", "s1")] a1 = Ok r2 a2
    /\ rdata r2 = [("valid", JBool false)].
Proof.
  refine (ended_session_is_not_valid api_env_plain [("session_id", "s1")]
            api_sample _).
  cbn. repeat constructor; cbn; intuition discriminate.
Defined.

(** [get_sessions], once the request names a user of the table and carries
    a password: the password check decides. *)
Lemma get_sessions_run E form a name pw row :
  assoc "username" form = Some name ->
  assoc "password" form = Some pw ->
  API.find_one name (users a) = Some row ->
  API.get_sessions E form a =
    let a' := mkApi (core_sessions a) (users a)
                    (api_log a ++ [(INFO, ":API:/api/get_sessions")]) in
    match checkpw E pw (snd row) with
    | inl e => match e with
               | KeyError =>
                   Ok (mkResponse (Some "error")
                         (Some "Couldn't find username and password in request") [])
                      a'
               | _ => Raise e a'
               end
    | inr false =>
        Ok (mkResponse (Some "error")
              (Some "Invalid username/password combination") []) a'
    | inr true =>
        match API.collect name (core_sessions a)
                (mkResponse None None [("sessions", JKeys [])], a') with
        | Ok _ s =>
            Ok (API.set_rtext "Fetched active sessions"
                  (API.set_rtype "success" (fst s))) (snd s)
        | Raise KeyError s =>
            Ok (API.set_rtext "Couldn't find username and password in request"
                  (API.set_rtype "error" (fst s))) (snd s)
        | Raise e s => Raise e (snd s)
        end
    end.
Proof.
  intros Hname Hpw Hrow. unfold API.get_sessions. run_route.
  rewrite !form_get_assoc, Hname. cbn. rewrite form_get_assoc, Hpw. cbn.
  rewrite Hrow. cbn.
  destruct (checkpw E pw (snd row)) as [e|[|]]; cbn.
  - now destruct e.
  - unfold API.data_update. cbn.
    destruct (API.collect name (core_sessions a) _) as [[] s|e s]; cbn;
      [reflexivity | now destruct e].
  - reflexivity.
Qed.

(** X22.  A request with the username of a user of the table and a
    password that checks, while every session names its user, is answered
    with the keys of exactly the sessions of that user, in the order of
    [core.sessions]; sessions and users are untouched. *)
Theorem get_sessions_lists_the_sessions_of_the_user E form a name pw row :
  assoc "username" form = Some name ->
  assoc "password" form = Some pw ->
  API.find_one name (users a) = Some row ->
  checkpw E pw (snd row) = inr true ->
  Forall (fun kv => assoc "username" (snd kv) <> None) (core_sessions a) ->
  exists a',
    API.get_sessions E form a =
      Ok (mkResponse (Some "success") (Some "Fetched active sessions")
            [("sessions", JKeys (owned_by name (core_sessions a)))]) a'
    /\ core_sessions a' = core_sessions a
    /\ users a' = users a.
Proof.
  intros Hname Hpw Hrow Hcheck Hall.
  rewrite (get_sessions_run E form a name pw row Hname Hpw Hrow), Hcheck.
  cbn zeta. rewrite collect_run by exact Hall.
  eexists. split; [reflexivity|]. cbn. auto.
Qed.

Lemma get_sessions_lists_the_sessions_of_the_user_witness :
  exists a',
    API.get_sessions api_env_plain
      [("username", "alice"); ("password", "wonderland")] api_sample =
      Ok (mkResponse (Some "success") (Some "Fetched active sessions")
            [("sessions", JKeys [SStr "s1"; SStr "s3"])]) a'
    /\ core_sessions a' = core_sessions api_sample
    /\ users a' = users api_sample.
Proof.
  refine (get_sessions_lists_the_sessions_of_the_user api_env_plain
            [("username", "alice"); ("password", "wonderland")] api_sample
            "alice" "wonderland" ("alice", "wonderland")
            eq_refl eq_refl eq_refl eq_refl _).
  repeat constructor; cbn; discriminate.
Defined.

(** X23.  A request for the sessions of a username the table does not
    hold is not answered: subscripting the [None] that [find_one] returned
    raises [TypeError], which the [except KeyError] of the route lets
    through; the password is never checked and nothing but the log has
    changed. *)
Theorem get_sessions_of_unknown_user_raises E form a name pw :
  assoc "username" form = Some name ->
  assoc "password" form = Some pw ->
  API.find_one name (users a) = None ->
  API.get_sessions E form a =
    Raise TypeError
      (mkApi (core_sessions a) (users a)
             (api_log a ++ [(INFO, ":API:/api/get_sessions")])).
Proof.
  intros Hname Hpw Hrow. unfold API.get_sessions. run_route.
  rewrite !form_get_assoc, Hname. cbn. rewrite form_get_assoc, Hpw. cbn.
  now rewrite Hrow.
Qed.

Lemma get_sessions_of_unknown_user_raises_witness :
  API.get_sessions api_env_plain [("username", "carol"); ("password", "x")]
    api_sample =
    Raise TypeError
      (mkApi (core_sessions api_sample) (users api_sample)
             (api_log api_sample ++ [(INFO, ":API:/api/get_sessions")])).
Proof.
  exact (get_sessions_of_unknown_user_raises api_env_plain
           [("username", "carol"); ("password", "x")] api_sample "carol" "x"
           eq_refl eq_refl eq_refl).
Defined.

(** X24.  A password that does not check is answered with an error whose
    data is empty: no session id leaves the process, and the sessions of
    the user are not even looked at. *)
Theorem get_sessions_with_wrong_password_lists_nothing E form a name pw row :
  assoc "username" form = Some name ->
  assoc "password" form = Some pw ->
  API.find_one name (users a) = Some row ->
  checkpw E pw (snd row) = inr false ->
  exists a',
    API.get_sessions E form a =
      Ok (mkResponse (Some "error")
            (Some "Invalid username/password combination") []) a'
    /\ core_sessions a' = core_sessions a.
Proof.
  intros Hname Hpw Hrow Hcheck.
  rewrite (get_sessions_run E form a name pw row Hname Hpw Hrow), Hcheck.
  cbn zeta. eexists. split; reflexivity.
Qed.

Lemma get_sessions_with_wrong_password_lists_nothing_witness :
  exists a',
    API.get_sessions api_env_plain
      [("username", "alice"); ("password", "guess")] api_sample =
      Ok (mkResponse (Some "error")
            (Some "Invalid username/password combination") []) a'
    /\ core_sessions a' = core_sessions api_sample.
Proof.
  exact (get_sessions_with_wrong_password_lists_nothing api_env_plain
           [("username", "alice"); ("password", "guess")] api_sample
           "alice" "guess" ("alice", "wonderland")
           eq_refl eq_refl eq_refl eq_refl).
Defined.

(** X25.  One session without a ["username"] entry spoils the listing for
    every user: the [KeyError] of the loop is caught by the handler meant
    for the request, so a request with a good password is answered that
    username and password could not be found in it, with the sessions
    collected before the faulty one still in the data. *)
Theorem get_sessions_blames_the_request_for_a_faulty_session
  E form a name pw row pre k entries post :
  assoc "username" form = Some name ->
  assoc "password" form = Some pw ->
  API.find_one name (users a) = Some row ->
  checkpw E pw (snd row) = inr true ->
  core_sessions a = pre ++ (k, entries) :: post ->
  Forall (fun kv => assoc "username" (snd kv) <> None) pre ->
  assoc "username" entries = None ->
  exists a',
    API.get_sessions E form a =
      Ok (mkResponse (Some "error")
            (Some "Couldn't find username and password in request")
            [("sessions", JKeys (owned_by name pre))]) a'.
Proof.
  intros Hname Hpw Hrow Hcheck Hsessions Hpre Hnone.
  rewrite (get_sessions_run E form a name pw row Hname Hpw Hrow), Hcheck.
  cbn zeta. rewrite Hsessions, collect_stops by assumption.
  eexists. reflexivity.
Qed.

Lemma get_sessions_blames_the_request_for_a_faulty_session_witness :
  exists a',
    API.get_sessions api_env_plain
      [("username", "alice"); ("password", "wonderland")]
      (mkApi [(SStr "s1", [("username", "alice")]);
              (SStr "s2", [("client", "API-GET")]);
              (SStr "s3", [("username", "alice")])]
             [("alice", "wonderland")] []) =
      Ok (mkResponse (Some "error")
            (Some "Couldn't find username and password in request")
            [("sessions", JKeys [SStr "s1"])]) a'.
Proof.
  refine (get_sessions_blames_the_request_for_a_faulty_session api_env_plain
            [("username", "alice"); ("password", "wonderland")]
            (mkApi [(SStr "s1", [("username", "alice")]);
                    (SStr "s2", [("client", "API-GET")]);
                    (SStr "s3", [("username", "alice")])]
                   [("alice", "wonderland")] [])
            "alice" "wonderland" ("alice", "wonderland")
            [(SStr "s1", [("username", "alice")])] (SStr "s2")
            [("client", "API-GET")] [(SStr "s3", [("username", "alice")])]
            eq_refl eq_refl eq_refl eq_refl eq_refl _ eq_refl).
  repeat constructor; cbn; discriminate.
Defined.
